(** * pyarrow/serialization.py: the default serialization handlers

    A shallow embedding of [python/pyarrow/serialization.py]: the codecs the
    module registers (int, OrderedDict, defaultdict, numpy arrays), the
    registration script the module runs at import time, and the
    [SerializationContext] it runs against.

    Python values are modelled by the inductive [pyobj]; a call that can raise
    returns a [result]. *)

From stdpp Require Import gmap strings list fin_maps finite.
From Stdlib Require Import ZArith Ascii Lia.

Local Open Scope Z_scope.
Local Set Warnings "-register-all".

(** ** Exceptions and results *)

Inductive exn : Type :=
| TypeError
| ValueError
| UnregisteredTag (tag : string)
| CodecFailure (tag : string) (cause : exn).

Inductive result (A : Type) : Type :=
| Ok (a : A)
| Raise (e : exn).

Arguments Ok {A} a.
Arguments Raise {A} e.

#[global] Instance result_ret : MRet result := fun A a => Ok a.

#[global] Instance result_bind : MBind result := fun A B k r =>
  match r with
  | Ok a => k a
  | Raise e => Raise e
  end.

(** ** Python objects *)

(** The objects that occur as keys, values and array elements.  [PyFunc] is a
    callable (a function, a builtin or a class) known by its identity. *)
Inductive pyobj : Type :=
| PyNone
| PyBool (b : bool)
| PyInt (n : Z)
| PyStr (s : string)
| PyFunc (name : string)
| PyList (items : list pyobj)
| PyTuple (items : list pyobj).

(** [xs == ys] for two lists, or two tuples: as many items, equal at each
    place. *)
Definition all2 {A : Type} (eq : A -> A -> bool) : list A -> list A -> bool :=
  fix go (xs ys : list A) {struct xs} : bool :=
    match xs, ys with
    | [], [] => true
    | x :: xs', y :: ys' => eq x y && go xs' ys'
    | _, _ => false
    end.

(** Python's [==].  [bool] is a subclass of [int]: [True] and [False] compare
    as the integers 1 and 0.  A list never equals a tuple. *)
Fixpoint py_eq (a b : pyobj) : bool :=
  match a, b with
  | PyNone, PyNone => true
  | PyBool x, PyBool y => Bool.eqb x y
  | PyBool x, PyInt n => (if x then 1 else 0) =? n
  | PyInt n, PyBool y => n =? (if y then 1 else 0)
  | PyInt n, PyInt m => n =? m
  | PyStr s, PyStr t => String.eqb s t
  | PyFunc f, PyFunc g => String.eqb f g
  | PyList l1, PyList l2 => all2 py_eq l1 l2
  | PyTuple l1, PyTuple l2 => all2 py_eq l1 l2
  | _, _ => false
  end.

(** [hash(o)] succeeds: a list is unhashable, and so is a tuple that holds an
    unhashable object. *)
Fixpoint hashable (o : pyobj) : bool :=
  match o with
  | PyList _ => false
  | PyTuple items => forallb hashable items
  | _ => true
  end.

(** [callable(o)] *)
Definition callable (o : pyobj) : bool :=
  match o with
  | PyFunc _ => true
  | _ => false
  end.

(** [o is None] *)
Definition is_none (o : pyobj) : bool :=
  match o with
  | PyNone => true
  | _ => false
  end.

(** ** Dictionaries

    A dictionary is the list of its items in insertion order.  Its keys are
    hashable and pairwise different under [==]. *)

Definition items_t : Type := list (pyobj * pyobj).

(** No key equals, under [==], a key after it. *)
Fixpoint keys_distinct (ks : list pyobj) : bool :=
  match ks with
  | [] => true
  | k :: rest => forallb (fun k' => negb (py_eq k k')) rest && keys_distinct rest
  end.

(** The items of a dictionary: hashable keys, pairwise different. *)
Definition dict_wf (d : items_t) : bool :=
  forallb hashable d.*1 && keys_distinct d.*1.

(** [d[k] = v] on a hashable key: an equal key keeps its place (and the key
    object already stored), a new key goes last. *)
Fixpoint dict_store (d : items_t) (k v : pyobj) : items_t :=
  match d with
  | [] => [(k, v)]
  | (k0, v0) :: rest =>
      if py_eq k0 k then (k0, v) :: rest else (k0, v0) :: dict_store rest k v
  end.

(** [d[k] = v]: raises [TypeError] on an unhashable key. *)
Definition dict_setitem (d : items_t) (k v : pyobj) : result items_t :=
  if hashable k then Ok (dict_store d k v) else Raise TypeError.

(** [d.update(pairs)], also what [dict(pairs)], [OrderedDict(pairs)] and
    [defaultdict(f, pairs)] do with their pairs, starting from no item. *)
Fixpoint dict_update (d : items_t) (pairs : items_t) : result items_t :=
  match pairs with
  | [] => Ok d
  | (k, v) :: rest => d' ← dict_setitem d k v; dict_update d' rest
  end.

Record OrderedDict : Type := mkOrderedDict { od_items : items_t }.

(** [OrderedDict(pairs)] *)
Definition OrderedDict_new (pairs : items_t) : result OrderedDict :=
  d ← dict_update [] pairs; Ok (mkOrderedDict d).

(** A defaultdict: a dictionary with the attribute [default_factory], which
    can be set to any object once the defaultdict exists. *)
Record defaultdict : Type := mkdefaultdict {
  default_factory : pyobj;
  dd_items : items_t
}.

(** [defaultdict(default_factory, pairs)]: the first argument must be callable
    or [None]. *)
Definition defaultdict_new (factory : pyobj) (pairs : items_t)
  : result defaultdict :=
  if callable factory || is_none factory then
    d ← dict_update [] pairs; Ok (mkdefaultdict factory d)
  else Raise TypeError.

(** A defaultdict as the constructor leaves it: a dictionary with a factory
    that is callable or [None]. *)
Definition defaultdict_wf (d : defaultdict) : bool :=
  (callable (default_factory d) || is_none (default_factory d))
  && dict_wf (dd_items d).

(** ** The OrderedDict and defaultdict codecs
    ([register_default_serialization_handlers], lines 78-98) *)

(** [return list(obj.keys()), list(obj.values())] *)
Definition _serialize_ordered_dict (obj : OrderedDict)
  : list pyobj * list pyobj :=
  ((od_items obj).*1, (od_items obj).*2).

(** [return OrderedDict(zip(data[0], data[1]))] *)
Definition _deserialize_ordered_dict (data : list pyobj * list pyobj)
  : result OrderedDict :=
  OrderedDict_new (zip data.1 data.2).

(** [return list(obj.keys()), list(obj.values()), obj.default_factory] *)
Definition _serialize_default_dict (obj : defaultdict)
  : list pyobj * list pyobj * pyobj :=
  ((dd_items obj).*1, (dd_items obj).*2, default_factory obj).

(** [return defaultdict(data[2], zip(data[0], data[1]))] *)
Definition _deserialize_default_dict (data : list pyobj * list pyobj * pyobj)
  : result defaultdict :=
  defaultdict_new data.2 (zip data.1.1 data.1.2).

(** ** Integers and strings: [str] and [int]

    [str] and [int] as CPython 3 defines them
    ([long_to_decimal_string_internal] and [PyLong_FromString] in
    [Objects/longobject.c]).  A [string] is a [str] whose characters have code
    points below 256. *)

(** What the two conversions depend on in the interpreter that runs the
    module. *)
Record interpreter : Type := mkInterpreter {
  int_max_str_digits : nat;  (* sys.get_int_max_str_digits(); 0: no limit *)
  digit_underscores : bool   (* int() reads "1_000" (Python 3.6 and later) *)
}.

(** CPython 3.11 as it starts: integers of at most 4300 digits are
    converted. *)
Definition cpython_3_11 : interpreter := mkInterpreter 4300 true.

(** An interpreter without the limit: after [sys.set_int_max_str_digits(0)],
    or a release that does not have it. *)
Definition unlimited (underscores : bool) : interpreter :=
  mkInterpreter 0 underscores.

(** A conversion of at most this many characters is never refused;
    [sys.set_int_max_str_digits] accepts 0 and the limits from here on. *)
Definition _PY_LONG_MAX_STR_DIGITS_THRESHOLD : nat := 640.

(** The test both conversions make, on a string of [len] characters, [digits]
    of them digits. *)
Definition exceeds_max_str_digits (py : interpreter) (len digits : nat) : bool :=
  (_PY_LONG_MAX_STR_DIGITS_THRESHOLD <? len)%nat
  && (0 <? int_max_str_digits py)%nat
  && (int_max_str_digits py <? digits)%nat.

(** [chr(ord('0') + d)] *)
Definition digit_char (d : Z) : ascii := ascii_of_N (Z.to_N (48 + d)).

(** The value of a decimal digit character. *)
Definition digit_value (c : ascii) : option Z :=
  let n := Z.of_N (N_of_ascii c) in
  if (48 <=? n) && (n <=? 57) then Some (n - 48) else None.

(** The decimal digits of [n >= 0], most significant first, put in front of
    [acc]; [fuel] bounds the number of digits. *)
Fixpoint digits_acc (fuel : nat) (n : Z) (acc : string) : string :=
  match fuel with
  | O => acc
  | S fuel' =>
      let acc' := String (digit_char (n mod 10)) acc in
      if n <? 10 then acc' else digits_acc fuel' (n / 10) acc'
  end.

(** A number below [2 ^ (log2 n + 1)] has at most [log2 n + 1] digits. *)
Definition decimal (n : Z) : string :=
  digits_acc (S (Z.to_nat (Z.log2 n))) n "".

(** The decimal form of an integer: the digits, after a minus sign when
    [n < 0]. *)
Definition decimal_literal (n : Z) : string :=
  if n <? 0 then String "-" (decimal (- n)) else decimal n.

(** [str(n)] for an integer: its decimal form, and [ValueError] when that has
    more digits than the interpreter converts. *)
Definition str_int (py : interpreter) (n : Z) : result string :=
  let s := decimal_literal n in
  let strlen := String.length s in
  let strlen_nosign := if n <? 0 then pred strlen else strlen in
  if exceeds_max_str_digits py strlen strlen_nosign then Raise ValueError
  else Ok s.

(** [str(o)].  [None] where the model gives no string form (containers print
    the [repr] of their items, functions their address). *)
Definition py_str (py : interpreter) (o : pyobj) : option (result string) :=
  match o with
  | PyNone => Some (Ok "None")
  | PyBool b => Some (Ok (if b then "True" else "False"))
  | PyInt n => Some (str_int py n)
  | PyStr s => Some (Ok s)
  | PyFunc _ | PyList _ | PyTuple _ => None
  end.

(** The whitespace [int] skips before and after a number: the space and [\t],
    [\n], [\v], [\f], [\r] ([Py_ISSPACE]), and the two spaces above 127, [\x85]
    and [\xa0], which it reads as a space.  The separators [\x1c] to [\x1f]
    are not skipped. *)
Definition is_space (c : ascii) : bool :=
  let n := Z.of_N (N_of_ascii c) in
  (n =? 32) || ((9 <=? n) && (n <=? 13)) || (n =? 133) || (n =? 160).

Fixpoint skip_space (s : string) : string :=
  match s with
  | String c s' => if is_space c then skip_space s' else s
  | EmptyString => EmptyString
  end.

(** An optional sign: whether it is a minus sign, and what follows it. *)
Definition split_sign (s : string) : bool * string :=
  match s with
  | String c rest =>
      if Ascii.eqb c "-" then (true, rest)
      else if Ascii.eqb c "+" then (false, rest)
      else (false, s)
  | EmptyString => (false, s)
  end.

Definition is_underscore (c : ascii) : bool := Ascii.eqb c "_".

Definition starts_with_underscore (s : string) : bool :=
  match s with
  | String c _ => is_underscore c
  | EmptyString => false
  end.

(** The digits at the front of [s], read after the value [acc] and [digits]
    digits: their value, how many they are, and what comes after them.  Where
    the interpreter reads underscores, one underscore may stand between two
    digits; two in a row, or one after the last digit, give [None]. *)
Fixpoint scan_digits (underscores : bool) (s : string) (acc : Z) (digits : nat)
    (prev_underscore : bool) : option (Z * nat * string) :=
  match s with
  | String c s' =>
      match digit_value c with
      | Some d => scan_digits underscores s' (10 * acc + d) (S digits) false
      | None =>
          if underscores && is_underscore c then
            if prev_underscore then None
            else scan_digits underscores s' acc digits true
          else if prev_underscore then None else Some (acc, digits, s)
      end
  | EmptyString => if prev_underscore then None else Some (acc, digits, s)
  end.

(** What [int] does after the sign: no underscore in front, one digit or
    more, no more digits than the interpreter converts, then only
    whitespace. *)
Definition int_of_digits (py : interpreter) (negative : bool) (s : string)
  : result Z :=
  if starts_with_underscore s then Raise ValueError
  else
    match scan_digits (digit_underscores py) s 0 0 false with
    | None => Raise ValueError
    | Some (value, digits, rest) =>
        if (digits =? 0)%nat then Raise ValueError
        else if exceeds_max_str_digits py digits digits then Raise ValueError
        else
          match skip_space rest with
          | EmptyString => Ok (if negative then - value else value)
          | String _ _ => Raise ValueError
          end
    end.

(** [int(s)] for a string, base 10: whitespace, an optional sign, the digits,
    whitespace; anything else raises [ValueError]. *)
Definition py_int (py : interpreter) (s : string) : result Z :=
  let '(negative, digits) := split_sign (skip_space s) in
  int_of_digits py negative digits.

(** ** The int codec ([register_default_serialization_handlers], lines 67-70) *)

(** [custom_serializer=lambda obj: str(obj)] *)
Definition int_custom_serializer (py : interpreter) (obj : pyobj)
  : option (result string) := py_str py obj.

(** [custom_deserializer=lambda data: int(data)] *)
Definition int_custom_deserializer (py : interpreter) (data : string)
  : result pyobj :=
  n ← py_int py data; Ok (PyInt n).

(** The value of a string of decimal digits read after the value [acc]. *)
Fixpoint parse_digits (s : string) (acc : Z) : option Z :=
  match s with
  | EmptyString => Some acc
  | String c s' =>
      match digit_value c with
      | Some d => parse_digits s' (10 * acc + d)
      | None => None
      end
  end.

(** Strings of digits. *)
Definition is_digit (c : ascii) : bool :=
  match digit_value c with
  | Some _ => true
  | None => false
  end.

Fixpoint all_digits (s : string) : bool :=
  match s with
  | EmptyString => true
  | String c s' => is_digit c && all_digits s'
  end.

(** ** numpy arrays

    The list codec is the one the module registers for [np.ndarray], with
    the arrays of dtype [object] in mind (the source: "Set up serialization
    for numpy with dtype object (primitive types are handled efficiently with
    Arrow's Tensor facilities)").  numpy is not part of this module: [tolist]
    and [np.array] are modelled as numpy documents them, for the dtypes whose
    elements are objects of [pyobj]: [object], [bool] and the integers of 8
    to 64 bits.  An array is its dtype, named by its type string [dtype.str],
    its shape and its elements in C order, each element as the Python object
    that [item] returns for it. *)

Record ndarray : Type := mkndarray {
  dtype : string;
  shape : list nat;
  data : list pyobj
}.

(** The type string of the object dtype, [np.dtype(object).str]. *)
Definition dtype_object : string := "|O".

(** The dtypes of the model, by what an element is. *)
Inductive scalar_kind : Type :=
| kind_object             (* any Python object *)
| kind_bool               (* np.bool_ *)
| kind_int (bits : Z)     (* np.int8, np.int16, np.int32, np.int64 *)
| kind_uint (bits : Z).   (* np.uint8, np.uint16, np.uint32, np.uint64 *)

(** The type strings [dtype.str] gives for them: the byte order (['|'] where
    there is none), the kind and the size in bytes. *)
Definition dtype_table : list (string * scalar_kind) :=
  [("|O", kind_object); ("|b1", kind_bool);
   ("|i1", kind_int 8); ("<i2", kind_int 16); (">i2", kind_int 16);
   ("<i4", kind_int 32); (">i4", kind_int 32);
   ("<i8", kind_int 64); (">i8", kind_int 64);
   ("|u1", kind_uint 8); ("<u2", kind_uint 16); (">u2", kind_uint 16);
   ("<u4", kind_uint 32); (">u4", kind_uint 32);
   ("<u8", kind_uint 64); (">u8", kind_uint 64)].

(** The first entry of a table under a key. *)
Fixpoint table_get {A : Type} (key : string) (table : list (string * A))
  : option A :=
  match table with
  | [] => None
  | (k, v) :: rest => if String.eqb k key then Some v else table_get key rest
  end.

(** What the elements of a dtype are; [None] for a dtype outside the model
    (floating point, strings, dates, records) and for the other spellings
    [np.dtype] accepts (['int64'], ['O']). *)
Definition dtype_kind (s : string) : option scalar_kind :=
  table_get s dtype_table.

(** The largest number of dimensions of an array, [NPY_MAXDIMS]. *)
Definition NPY_MAXDIMS : nat := 32.

Definition product (dims : list nat) : nat := foldr Nat.mul 1%nat dims.

(** The Python objects [item] returns for the elements of a dtype: any
    object, a [bool], an [int] in the range of the integer type. *)
Definition is_scalar_of (k : scalar_kind) (o : pyobj) : bool :=
  match k, o with
  | kind_object, _ => true
  | kind_bool, PyBool _ => true
  | kind_int bits, PyInt n => (- 2 ^ (bits - 1) <=? n) && (n <? 2 ^ (bits - 1))
  | kind_uint bits, PyInt n => (0 <=? n) && (n <? 2 ^ bits)
  | _, _ => false
  end.

(** An array holds [product shape] elements, each one an element of its
    dtype, and has at most [NPY_MAXDIMS] dimensions. *)
Definition ndarray_wf (a : ndarray) : Prop :=
  length (data a) = product (shape a)
  /\ (length (shape a) <= NPY_MAXDIMS)%nat
  /\ match dtype_kind (dtype a) with
     | Some k => Forall (fun o => is_scalar_of k o = true) (data a)
     | None => True
     end.

(** [l] cut into [n] consecutive runs of [k] elements. *)
Fixpoint chunks {A : Type} (n k : nat) (l : list A) : list (list A) :=
  match n with
  | O => []
  | S n' => take k l :: chunks n' k (drop k l)
  end.

(** [a.tolist()]: the elements as a list nested [a.ndim] levels deep; the
    element itself for an array of no dimension. *)
Fixpoint tolist_rec (dims : list nat) (elts : list pyobj) : pyobj :=
  match dims with
  | [] => default PyNone (head elts)
  | n :: rest => PyList (tolist_rec rest <$> chunks n (product rest) elts)
  end.

Definition tolist (a : ndarray) : pyobj := tolist_rec (shape a) (data a).

(** [np.dtype(s)]: a dtype is named by its type string. *)
Definition np_dtype (s : string) : string := s.

(** The longest common prefix of two shapes. *)
Fixpoint common_prefix (s1 s2 : list nat) : list nat :=
  match s1, s2 with
  | m :: r1, n :: r2 => if (m =? n)%nat then m :: common_prefix r1 r2 else []
  | _, _ => []
  end.

(** The dimensions on which all the given shapes agree. *)
Definition common_shape (shapes : list (list nat)) : list nat :=
  match shapes with
  | [] => []
  | s :: rest => foldl common_prefix s rest
  end.

(** The items of a sequence that [np.array] opens as a dimension: among the
    objects of [pyobj], a list or a tuple.  (A string is a sequence too, but
    [np.array] takes it as one element.) *)
Definition sequence_items (o : pyobj) : option (list pyobj) :=
  match o with
  | PyList items | PyTuple items => Some items
  | _ => None
  end.


(** The shape [np.array(obj, dtype=object)] finds for [obj]: a sequence is a
    dimension of its length, continued by the dimensions its items agree on;
    any other object is an element.  At most [maxdims] dimensions are
    opened. *)
Fixpoint discover_shape (maxdims : nat) (obj : pyobj) : list nat :=
  match maxdims with
  | O => []
  | S m =>
      match sequence_items obj with
      | Some items => length items :: common_shape (discover_shape m <$> items)
      | None => []
      end
  end.

(** The objects found in [obj] once its first [depth] levels of sequences are
    opened. *)
Fixpoint flatten (depth : nat) (obj : pyobj) : list pyobj :=
  match depth with
  | O => [obj]
  | S d =>
      match sequence_items obj with
      | Some items => concat (flatten d <$> items)
      | None => [obj]
      end
  end.

(** Storing a Python object in an element of an array: any object in an
    object array; a [bool] or an [int] in a boolean array, by its truth
    value; a [bool], or an [int] in the range of the type, in an integer
    array.  [None] for the rest: what numpy refuses (a sequence, where a
    number is expected) and what the model leaves out (an integer out of
    range, a string, [None]). *)
Definition setitem (k : scalar_kind) (o : pyobj) : option pyobj :=
  match k, o with
  | kind_object, _ => Some o
  | kind_bool, PyBool b => Some (PyBool b)
  | kind_bool, PyInt n => Some (PyBool (negb (n =? 0)))
  | (kind_int _ | kind_uint _), PyInt n =>
      if is_scalar_of k (PyInt n) then Some (PyInt n) else None
  | (kind_int _ | kind_uint _), PyBool b => Some (PyInt (if b then 1 else 0))
  | _, _ => None
  end.

(** [np.array(obj, dtype=dt)]: the shape found for [obj], and the objects
    found at that depth stored as elements of the dtype.  [None] where
    numpy raises, or the model does not say: a dtype outside [dtype_kind],
    an object that [setitem] does not store. *)
Definition np_array (obj : pyobj) (dt : string) : option ndarray :=
  k ← dtype_kind dt;
  let dims := discover_shape NPY_MAXDIMS obj in
  elts ← mapM (setitem k) (flatten (length dims) obj);
  Some (mkndarray dt dims elts).

(** ** The numpy list codec (lines 38-43) *)

(** [return obj.tolist(), obj.dtype.str] *)
Definition _serialize_numpy_array_list (obj : ndarray) : pyobj * string :=
  (tolist obj, dtype obj).

(** [return np.array(data[0], dtype=np.dtype(data[1]))] *)
Definition _deserialize_numpy_array_list (data : pyobj * string)
  : option ndarray :=
  np_array data.1 (np_dtype data.2).


(** Addresses of objects. *)
Abbreviation loc := nat.

(** ** The serialization context

    [SerializationContext] is defined in [pyarrow.lib], which is not part of
    this module: [serialization.py] only calls its [register_type] and [clone]
    methods.  The definitions of this section follow the specification. *)

Section context.
(** Type identities and references to codec functions. *)
Context {T : Type} `{Countable T} {F : Type}.

(** The proper supertypes of a type, from the most specific to the least
    specific one. *)
Variable ancestors : T -> list T.

(** Modelled from the spec: the registration entry of [pyarrow.lib]'s
    [SerializationContext], "(type identity, TypeTag, Codec)", the codec
    being a serializer and a deserializer. *)
Record RegistrationEntry : Type := mkEntry {
  entry_type : T;
  entry_tag : string;
  entry_serializer : F;
  entry_deserializer : F
}.

(** Modelled from the spec: [pyarrow.lib]'s [SerializationContext], "a
    mapping from runtime type identity to (TypeTag, Codec)"; deserialization
    looks a codec up "strictly by TypeTag", so the entries are also indexed
    by tag. *)
Record SerializationContext : Type := mkContext {
  registry : gmap T RegistrationEntry;
  tags : gmap string RegistrationEntry
}.

(** Modelled from the spec: a context "created empty". *)
Definition empty_context : SerializationContext := mkContext ∅ ∅.

(** Modelled from the spec: [SerializationContext.register_type], on the
    value of a context: "inserts or replaces the RegistrationEntry for that
    type", and a tag already bound is overwritten, "last registration wins". *)
Definition ctx_register (ty : T) (tag : string) (ser deser : F)
    (ctx : SerializationContext) : SerializationContext :=
  let e := mkEntry ty tag ser deser in
  mkContext (<[ty := e]> (registry ctx)) (<[tag := e]> (tags ctx)).

(** Modelled from the spec: the outcome of the type resolution of
    [SerializationContext], a registered entry or the fallback entry that
    "must always exist in every context". *)
Inductive dispatch : Type :=
| Registered (e : RegistrationEntry)
| Fallback.

(** Modelled from the spec: the ancestry walk of the type resolution, "the
    first registered ancestor's entry". *)
Fixpoint first_registered (ctx : SerializationContext) (tys : list T)
  : option RegistrationEntry :=
  match tys with
  | [] => None
  | A :: rest =>
      match registry ctx !! A with
      | Some e => Some e
      | None => first_registered ctx rest
      end
  end.

(** Modelled from the spec: the type resolution of [SerializationContext],
    "Look up an exact match in the registry first. If absent, walk the
    type's ancestry (supertypes, in most-specific-to-least-specific order)
    and return the first registered ancestor's entry. If no ancestor
    matches, return the Fallback entry." *)
Definition resolve (ctx : SerializationContext) (ty : T) : dispatch :=
  match registry ctx !! ty with
  | Some e => Registered e
  | None =>
      match first_registered ctx (ancestors ty) with
      | Some e => Registered e
      | None => Fallback
      end
  end.

(** Values, and what calling a codec function on a value does. *)
Context {Value : Type}.
Variable call : F -> Value -> result Value.
Variable of_buffer : list Z -> Value.
Variable of_tuple : list Value -> Value.

(** Modelled from the spec: the representation of a serialized value,
    "either (a) a Buffer (terminal, opaque bytes) or (b) an ordered tuple of
    sub-values", a sub-value being a primitive passed through unchanged or
    the tagged representation of a serialized value. *)
Inductive Representation : Type :=
| Buffer (bytes : list Z)
| Structured (elements : list Element)
with Element : Type :=
| Primitive (v : Value)
| Tagged (tag : string) (r : Representation).

(** Modelled from the spec: [deserialize(tag, representation)] of
    [SerializationContext]: "Look up Codec strictly by TypeTag (exact string
    match; no ancestry walk)", "Fails with an UnknownTag error if the tag
    was never registered in this context", "If the representation is
    structured (tuple-shaped), recursively deserialize each tagged element
    before invoking deserializer(data)"; a codec that raises is reported
    with the tag. *)
Fixpoint deserialize (ctx : SerializationContext) (tag : string)
    (r : Representation) : result Value :=
  match tags ctx !! tag with
  | None => Raise (UnregisteredTag tag)
  | Some e =>
      data ← match r with
             | Buffer bytes => Ok (of_buffer bytes)
             | Structured elements =>
                 vs ← (fix each (elts : list Element) : result (list Value) :=
                         match elts with
                         | [] => Ok []
                         | elt :: rest =>
                             v ← match elt with
                                 | Primitive v => Ok v
                                 | Tagged t r' => deserialize ctx t r'
                                 end;
                             vs ← each rest;
                             Ok (v :: vs)
                         end) elements;
                 Ok (of_tuple vs)
             end;
      match call (entry_deserializer e) data with
      | Ok v => Ok v
      | Raise cause => Raise (CodecFailure tag cause)
      end
  end.

(** *** Contexts as objects

    A context is a mutable object: the module keeps two of them and calls
    their methods.  The store maps the address of each context to its
    current value. *)

Local Abbreviation store := (gmap loc SerializationContext).

(** A computation on the store. *)
Definition M (A : Type) : Type := store -> A * store.

#[global] Instance M_ret : MRet M := fun A a h => (a, h).
#[global] Instance M_bind : MBind M := fun A B k m h =>
  let '(a, h') := m h in k a h'.

(** Modelled from the spec: the method [register_type] of the context at
    address [self]; it updates that object in place. *)
Definition register_type (self : loc) (ty : T) (tag : string) (ser deser : F)
  : M unit :=
  fun h => (tt, alter (ctx_register ty tag ser deser) self h).

(** Modelled from the spec: the method [clone] of the context at address
    [self]: it "produces a new SerializationContext whose registry is a full
    independent copy of the current entries (same Codec function references,
    but a separate mapping structure)". *)
Definition clone (self : loc) : M loc :=
  fun h =>
    let l := fresh (dom h) in
    (l, match h !! self with
        | Some ctx => <[l := ctx]> h
        | None => h
        end).
End context.

Arguments RegistrationEntry T F : clear implicits.
Arguments mkEntry {T F} entry_type entry_tag entry_serializer entry_deserializer.
Arguments SerializationContext T {_ _} F.
Arguments dispatch T F : clear implicits.
Arguments Fallback {T F}.
Arguments M T {_ _} F A.
Arguments empty_context {T _ _ F}.

(** ** The types and functions of [serialization.py] *)

(** [torch.FloatTensor], ..., [torch.LongTensor] *)
Inductive torch_tensor : Type :=
| FloatTensor | DoubleTensor | HalfTensor | ByteTensor
| CharTensor | ShortTensor | IntTensor | LongTensor.

(** The classes the module registers, with the builtin classes they derive
    from and three subclasses of [np.ndarray] that are not registered:
    [np.matrix], [np.ma.MaskedArray] and its subclass [MaskedConstant], the
    class of [np.ma.masked]. *)
Inductive pytype : Type :=
| ty_object
| ty_int
| ty_bool
| ty_long
| ty_dict
| ty_OrderedDict
| ty_defaultdict
| ty_function
| ty_type
| np_ndarray
| np_matrix
| np_ma_MaskedArray
| np_ma_MaskedConstant
| ty_torch (t : torch_tensor)
| pd_Series
| pd_Index
| pd_DataFrame.

#[global] Instance torch_tensor_eq_dec : EqDecision torch_tensor.
Proof. solve_decision. Defined.

#[global] Instance pytype_eq_dec : EqDecision pytype.
Proof. solve_decision. Defined.

Definition torch_tensors : list torch_tensor :=
  [FloatTensor; DoubleTensor; HalfTensor; ByteTensor;
   CharTensor; ShortTensor; IntTensor; LongTensor].

Definition pytypes : list pytype :=
  [ty_object; ty_int; ty_bool; ty_long; ty_dict; ty_OrderedDict;
   ty_defaultdict; ty_function; ty_type; np_ndarray; np_matrix;
   np_ma_MaskedArray; np_ma_MaskedConstant]
  ++ (ty_torch <$> torch_tensors)
  ++ [pd_Series; pd_Index; pd_DataFrame].

#[global, refine] Instance pytype_finite : Finite pytype := {| enum := pytypes |}.
Proof.
  - by apply (bool_decide_unpack _).
  - intros [| | | | | | | | | | | | | [] | | |];
      by apply (bool_decide_unpack _).
Defined.

(** [t.__name__] *)
Definition tensor_name (t : torch_tensor) : string :=
  match t with
  | FloatTensor => "FloatTensor"
  | DoubleTensor => "DoubleTensor"
  | HalfTensor => "HalfTensor"
  | ByteTensor => "ByteTensor"
  | CharTensor => "CharTensor"
  | ShortTensor => "ShortTensor"
  | IntTensor => "IntTensor"
  | LongTensor => "LongTensor"
  end.

(** [ty.__mro__] after [ty] itself, among the classes of [pytype]. *)
Definition ancestors (ty : pytype) : list pytype :=
  match ty with
  | ty_object => []
  | ty_bool => [ty_int; ty_object]
  | ty_OrderedDict | ty_defaultdict => [ty_dict; ty_object]
  | np_matrix | np_ma_MaskedArray => [np_ndarray; ty_object]
  | np_ma_MaskedConstant => [np_ma_MaskedArray; np_ndarray; ty_object]
  | _ => [ty_object]
  end.

(** The functions the module registers as serializers and deserializers, by
    identity.  The two lambdas of a registration are named after the keyword
    they are passed as; the handlers that [_register_pandas_arrow_handlers]
    and [_register_custom_pandas_handlers] define under the same names are told
    apart by [arrow] and [custom]. *)
Inductive funref : Type :=
| fn_int_custom_serializer | fn_int_custom_deserializer
| fn_long_custom_serializer | fn_long_custom_deserializer
| fn_serialize_ordered_dict | fn_deserialize_ordered_dict
| fn_serialize_default_dict | fn_deserialize_default_dict
| fn_cloudpickle_dumps | fn_cloudpickle_loads
| fn_pickle_dumps | fn_pickle_loads
| fn_serialize_numpy_array_list | fn_deserialize_numpy_array_list
| fn_pickle_to_buffer | fn_load_pickle_from_buffer
| fn_serialize_torch_tensor | fn_deserialize_torch_tensor
| fn_arrow_serialize_pandas_series | fn_arrow_deserialize_pandas_series
| fn_arrow_serialize_pandas_dataframe | fn_arrow_deserialize_pandas_dataframe
| fn_custom_serialize_pandas_series | fn_custom_deserialize_pandas_series
| fn_custom_serialize_pandas_dataframe | fn_custom_deserialize_pandas_dataframe.

#[global] Instance funref_eq_dec : EqDecision funref.
Proof. solve_decision. Defined.

(** [_serialize_numpy_array_pickle = _pickle_to_buffer] and
    [_deserialize_numpy_array_pickle = _load_pickle_from_buffer] *)
Definition _serialize_numpy_array_pickle : funref := fn_pickle_to_buffer.
Definition _deserialize_numpy_array_pickle : funref := fn_load_pickle_from_buffer.

(** What the module finds when it is imported: the Python version and the
    optional packages. *)
Record environment : Type := mkEnv {
  python2 : bool;          (* sys.version_info < (3, 0) *)
  has_cloudpickle : bool;  (* import cloudpickle succeeds *)
  has_torch : bool;        (* import torch succeeds *)
  has_pandas : bool        (* import pandas succeeds *)
}.

(** [cloudpickle], which is [pickle] when the import fails. *)
Definition cloudpickle_dumps (env : environment) : funref :=
  if has_cloudpickle env then fn_cloudpickle_dumps else fn_pickle_dumps.
Definition cloudpickle_loads (env : environment) : funref :=
  if has_cloudpickle env then fn_cloudpickle_loads else fn_pickle_loads.

Abbreviation Entry := (RegistrationEntry pytype funref).
Abbreviation Ctx := (SerializationContext pytype funref).
Abbreviation Store := (gmap loc Ctx).
Abbreviation Run := (M pytype funref).

(** [for x in xs: body(x)] *)
Definition for_each {A : Type} (xs : list A) (body : A -> Run unit) : Run unit :=
  foldr (fun x rest => body x ;; rest) (mret tt) xs.

(** [if cond: body] *)
Definition when (cond : bool) (body : Run unit) : Run unit :=
  if cond then body else mret tt.

(** ** The registration script *)

Definition register_default_serialization_handlers (env : environment)
    (serialization_context : loc) : Run unit :=
  register_type serialization_context ty_int "int"
    fn_int_custom_serializer fn_int_custom_deserializer ;;
  when (python2 env)
    (register_type serialization_context ty_long "long"
       fn_long_custom_serializer fn_long_custom_deserializer) ;;
  register_type serialization_context ty_OrderedDict "OrderedDict"
    fn_serialize_ordered_dict fn_deserialize_ordered_dict ;;
  register_type serialization_context ty_defaultdict "defaultdict"
    fn_serialize_default_dict fn_deserialize_default_dict ;;
  register_type serialization_context ty_function "function"
    (cloudpickle_dumps env) (cloudpickle_loads env) ;;
  register_type serialization_context ty_type "type"
    (cloudpickle_dumps env) (cloudpickle_loads env) ;;
  register_type serialization_context np_ndarray "np.array"
    fn_serialize_numpy_array_list fn_deserialize_numpy_array_list ;;
  when (has_torch env)
    (for_each torch_tensors (fun t =>
       register_type serialization_context (ty_torch t)
         ("torch." +:+ tensor_name t)
         fn_serialize_torch_tensor fn_deserialize_torch_tensor)).

Definition _register_pandas_arrow_handlers (env : environment) (context : loc)
  : Run unit :=
  when (has_pandas env)
    (register_type context pd_Series "pd.Series"
       fn_arrow_serialize_pandas_series fn_arrow_deserialize_pandas_series ;;
     register_type context pd_DataFrame "pd.DataFrame"
       fn_arrow_serialize_pandas_dataframe
       fn_arrow_deserialize_pandas_dataframe).

Definition _register_custom_pandas_handlers (env : environment) (context : loc)
  : Run unit :=
  when (has_pandas env)
    (register_type context pd_Series "pd.Series"
       fn_custom_serialize_pandas_series fn_custom_deserialize_pandas_series ;;
     register_type context pd_Index "pd.Index"
       fn_pickle_to_buffer fn_load_pickle_from_buffer ;;
     register_type context pd_DataFrame "pd.DataFrame"
       fn_custom_serialize_pandas_dataframe
       fn_custom_deserialize_pandas_dataframe).

(** Lines 221-224: [pandas_serialization_context.register_type(np.ndarray,
    'np.array', ...)] with the pickle functions. *)
Definition register_numpy_array_pickle (pandas_serialization_context : loc)
  : Run unit :=
  register_type pandas_serialization_context np_ndarray "np.array"
    _serialize_numpy_array_pickle _deserialize_numpy_array_pickle.

(** The statements the module runs when it is imported (lines 138-224), given
    the address of [pyarrow.lib._default_serialization_context]; the result is
    the address of [pandas_serialization_context]. *)
Definition module_body (env : environment) (_default_serialization_context : loc)
  : Run loc :=
  register_default_serialization_handlers env _default_serialization_context ;;
  pandas_serialization_context ← clone _default_serialization_context;
  _register_pandas_arrow_handlers env _default_serialization_context ;;
  _register_custom_pandas_handlers env pandas_serialization_context ;;
  register_numpy_array_pickle pandas_serialization_context ;;
  mret pandas_serialization_context.

(** [m] changes the context at address [l] by [f], and nothing else. *)
Definition updates (l : loc) (f : Ctx -> Ctx) (m : Run unit) : Prop :=
  forall h : Store, m h = (tt, alter f l h).

(** The entries the module registers for [np.ndarray]. *)
Definition ndarray_list_entry : Entry :=
  mkEntry np_ndarray "np.array"
    fn_serialize_numpy_array_list fn_deserialize_numpy_array_list.

Definition ndarray_pickle_entry : Entry :=
  mkEntry np_ndarray "np.array"
    fn_pickle_to_buffer fn_load_pickle_from_buffer.

(** *** A first import *)

(** Modelled from the spec: [pyarrow.lib._default_serialization_context] before
    this module is imported, a context "created empty"; it is the only context
    of the store, at address 0. *)
Definition initial_store : Store := {[ 0%nat := empty_context ]}.

(** The store once the module is imported, with the address of
    [pandas_serialization_context]. *)
Definition imported (env : environment) : loc * Store :=
  module_body env 0%nat initial_store.

(** The context at an address (the empty context at an unused address). *)
Definition context_at (l : loc) (h : Store) : Ctx :=
  default empty_context (h !! l).

(** [_default_serialization_context] and [pandas_serialization_context] once
    the module is imported. *)
Definition imported_default_context (env : environment) : Ctx :=
  context_at 0%nat (imported env).2.

Definition imported_pandas_context (env : environment) : Ctx :=
  context_at (imported env).1 (imported env).2.

(** ** Reading a dictionary *)

(** [d.get(k)] for a hashable key [k]: the value of the item whose key equals
    [k], [None] (here the option) when there is none. *)
Fixpoint dict_get (d : items_t) (k : pyobj) : option pyobj :=
  match d with
  | [] => None
  | (k0, v0) :: rest => if py_eq k0 k then Some v0 else dict_get rest k
  end.

(** ** Nested sequences of a given shape *)

(** [obj] is a sequence of [n] items for the first dimension [n], each of
    which is in turn nested as the remaining dimensions say. *)
Fixpoint conforms (dims : list nat) (obj : pyobj) : Prop :=
  match dims with
  | [] => True
  | n :: rest =>
      match sequence_items obj with
      | Some items => length items = n /\ Forall (conforms rest) items
      | None => False
      end
  end.

(** [obj] with the sequences of its first [depth] levels as lists. *)
Fixpoint as_lists (depth : nat) (obj : pyobj) : pyobj :=
  match depth with
  | O => obj
  | S d =>
      match sequence_items obj with
      | Some items => PyList (as_lists d <$> items)
      | None => obj
      end
  end.

(** There is no tuple among the sequences of the first [depth] levels of
    [obj]. *)
Fixpoint lists_only (depth : nat) (obj : pyobj) : bool :=
  match depth with
  | O => true
  | S d =>
      match obj with
      | PyList items => forallb (lists_only d) items
      | PyTuple _ => false
      | _ => true
      end
  end.

(** ** The registrations as tables *)

(** The entries [register_default_serialization_handlers] registers, in the
    order of its [register_type] calls (lines 67-132). *)
Definition default_entries (env : environment) : list Entry :=
  [mkEntry ty_int "int" fn_int_custom_serializer fn_int_custom_deserializer]
  ++ (if python2 env
      then [mkEntry ty_long "long"
              fn_long_custom_serializer fn_long_custom_deserializer]
      else [])
  ++ [mkEntry ty_OrderedDict "OrderedDict"
        fn_serialize_ordered_dict fn_deserialize_ordered_dict;
      mkEntry ty_defaultdict "defaultdict"
        fn_serialize_default_dict fn_deserialize_default_dict;
      mkEntry ty_function "function"
        (cloudpickle_dumps env) (cloudpickle_loads env);
      mkEntry ty_type "type" (cloudpickle_dumps env) (cloudpickle_loads env);
      ndarray_list_entry]
  ++ (if has_torch env
      then (fun t => mkEntry (ty_torch t) ("torch." +:+ tensor_name t)
                       fn_serialize_torch_tensor fn_deserialize_torch_tensor)
             <$> torch_tensors
      else []).

(** The entries of [_register_pandas_arrow_handlers] (lines 167-175). *)
Definition pandas_arrow_entries (env : environment) : list Entry :=
  if has_pandas env
  then [mkEntry pd_Series "pd.Series"
          fn_arrow_serialize_pandas_series fn_arrow_deserialize_pandas_series;
        mkEntry pd_DataFrame "pd.DataFrame"
          fn_arrow_serialize_pandas_dataframe
          fn_arrow_deserialize_pandas_dataframe]
  else [].

(** The entries of [_register_custom_pandas_handlers] (lines 201-214). *)
Definition custom_pandas_entries (env : environment) : list Entry :=
  if has_pandas env
  then [mkEntry pd_Series "pd.Series"
          fn_custom_serialize_pandas_series fn_custom_deserialize_pandas_series;
        mkEntry pd_Index "pd.Index"
          fn_pickle_to_buffer fn_load_pickle_from_buffer;
        mkEntry pd_DataFrame "pd.DataFrame"
          fn_custom_serialize_pandas_dataframe
          fn_custom_deserialize_pandas_dataframe]
  else [].

(** Registering an entry, and the entries of a table one after the other, in
    a context. *)
Definition register_entry (e : Entry) (c : Ctx) : Ctx :=
  ctx_register (entry_type e) (entry_tag e)
    (entry_serializer e) (entry_deserializer e) c.

Definition register_entries (es : list Entry) (c : Ctx) : Ctx :=
  foldl (fun c e => register_entry e c) c es.

(** The entry a table binds a type, a tag, to: the last one in the table. *)
Fixpoint bound_type (es : list Entry) (ty : pytype) : option Entry :=
  match es with
  | [] => None
  | e :: rest =>
      match bound_type rest ty with
      | Some e' => Some e'
      | None => if decide (entry_type e = ty) then Some e else None
      end
  end.

Fixpoint bound_tag (es : list Entry) (tag : string) : option Entry :=
  match es with
  | [] => None
  | e :: rest =>
      match bound_tag rest tag with
      | Some e' => Some e'
      | None => if decide (entry_tag e = tag) then Some e else None
      end
  end.

(** The two indexes of a context agree: an entry is filed under its own type
    and its own tag, the tag of a registered type leads back to the entry of
    the type, and the type of a registered tag to the entry of the tag. *)
Definition coherent (c : Ctx) : Prop :=
  (forall ty e, registry c !! ty = Some e ->
     entry_type e = ty /\ tags c !! entry_tag e = Some e)
  /\ (forall tag e, tags c !! tag = Some e ->
        entry_tag e = tag /\ registry c !! entry_type e = Some e).

(** No type and no tag of the table is bound in the context. *)
Definition unbound (es : list Entry) (c : Ctx) : Prop :=
  Forall (fun e => registry c !! entry_type e = None
                   /\ tags c !! entry_tag e = None) es.


(** [isinstance(o, int)]: the integers and, [bool] being a subclass of
    [int], the two booleans. *)
Definition isinstance_int (o : pyobj) : bool :=
  match o with
  | PyInt _ | PyBool _ => true
  | _ => false
  end.


(** * Theorems *)

(** ** Dictionaries *)

Lemma dict_store_fresh (d : items_t) (k v : pyobj) :
  forallb (fun k0 => negb (py_eq k0 k)) d.*1 = true ->
  dict_store d k v = d ++ [(k, v)].
Proof.
  induction d as [|[k0 v0] d IH]; simpl; [done|].
  intros [Hk Hd]%andb_prop.
  apply negb_true_iff in Hk. rewrite Hk. by rewrite IH.
Qed.

Lemma keys_distinct_app_cons (l1 l2 : list pyobj) (k : pyobj) :
  keys_distinct (l1 ++ k :: l2) = true ->
  forallb (fun k0 => negb (py_eq k0 k)) l1 = true.
Proof.
  induction l1 as [|k0 l1 IH]; simpl; [done|].
  intros [Hall Hd]%andb_prop.
  rewrite forallb_app in Hall. apply andb_prop in Hall as [_ Hall].
  simpl in Hall. apply andb_prop in Hall as [-> _]. simpl. by apply IH.
Qed.

(** Inserting pairs whose keys are hashable and new appends them in order. *)
Lemma dict_update_distinct (pairs d : items_t) :
  forallb hashable pairs.*1 = true ->
  keys_distinct (d ++ pairs).*1 = true ->
  dict_update d pairs = Ok (d ++ pairs).
Proof.
  revert d. induction pairs as [|[k v] pairs IH]; intros d Hh Hd; simpl.
  - by rewrite app_nil_r.
  - simpl in Hh. apply andb_prop in Hh as [Hk Hh].
    unfold dict_setitem. rewrite Hk. simpl.
    rewrite fmap_app in Hd. simpl in Hd.
    rewrite dict_store_fresh by (by eapply keys_distinct_app_cons).
    rewrite IH; [by rewrite <- app_assoc | done |].
    by rewrite <- app_assoc, fmap_app.
Qed.

Lemma dict_update_wf (d : items_t) :
  dict_wf d = true -> dict_update [] (zip d.*1 d.*2) = Ok d.
Proof.
  intros [Hh Hd]%andb_prop. rewrite zip_fst_snd.
  by apply (dict_update_distinct d []).
Qed.

Lemma dict_store_length (d : items_t) (k v : pyobj) :
  (length d <= length (dict_store d k v) <= S (length d))%nat.
Proof.
  induction d as [|[k0 v0] d IH]; simpl; [lia|].
  destruct (py_eq k0 k); simpl; lia.
Qed.

(** With hashable keys [update] does not raise; it adds at most one item per
    pair. *)
Lemma dict_update_hashable (pairs d : items_t) :
  forallb hashable pairs.*1 = true ->
  exists d', dict_update d pairs = Ok d'
             /\ (length d' <= length d + length pairs)%nat.
Proof.
  revert d. induction pairs as [|[k v] pairs IH]; intros d Hh; simpl.
  - exists d. split; [done | lia].
  - simpl in Hh. apply andb_prop in Hh as [Hk Hh].
    unfold dict_setitem. rewrite Hk. simpl.
    destruct (IH (dict_store d k v) Hh) as (d' & -> & Hlen).
    exists d'. split; [done|].
    pose proof (dict_store_length d k v). lia.
Qed.

(** [zip] pairs the first [len(vs)] keys (all of them when [ks] is shorter). *)
Lemma zip_keys (ks vs : list pyobj) :
  (zip ks vs).*1 = take (length vs) ks.
Proof.
  revert vs. induction ks as [|k ks IH]; intros [|v vs]; simpl; try done.
  by rewrite IH.
Qed.

Lemma zip_length_min (ks vs : list pyobj) :
  length (zip ks vs) = Nat.min (length ks) (length vs).
Proof.
  revert vs. induction ks as [|k ks IH]; intros [|v vs]; simpl; try done.
  by rewrite IH.
Qed.

(** ** The OrderedDict codec *)

(** C1. Serializing an OrderedDict with [_serialize_ordered_dict] and
    deserializing the result with [_deserialize_ordered_dict] returns an
    OrderedDict with the same items: the same keys in the same insertion order,
    each with the same value. *)
Theorem ordered_dict_roundtrip (obj : OrderedDict) :
  dict_wf (od_items obj) = true ->
  _deserialize_ordered_dict (_serialize_ordered_dict obj) = Ok obj.
Proof.
  intros Hwf. destruct obj as [d].
  unfold _deserialize_ordered_dict, _serialize_ordered_dict, OrderedDict_new.
  simpl in *. by rewrite dict_update_wf.
Qed.

(** The OrderedDict [{"a": 1, "b": 2}]: its serialized form is the key list
    ["a", "b"] with the value list [1, 2], and deserializing gives it back. *)
Lemma ordered_dict_roundtrip_ab :
  let obj := mkOrderedDict [(PyStr "a", PyInt 1); (PyStr "b", PyInt 2)] in
  _serialize_ordered_dict obj = ([PyStr "a"; PyStr "b"], [PyInt 1; PyInt 2])
  /\ _deserialize_ordered_dict ([PyStr "a"; PyStr "b"], [PyInt 1; PyInt 2])
     = Ok obj.
Proof.
  split; [reflexivity|].
  exact (ordered_dict_roundtrip
           (mkOrderedDict [(PyStr "a", PyInt 1); (PyStr "b", PyInt 2)])
           eq_refl).
Defined.

(** C10, as stated, fails when a key repeats among the paired keys: from the
    keys ["a", "a", "b"] and the values [1, 2] the deserializer builds an
    OrderedDict with one entry, not [min(3, 2) = 2]. *)
Lemma ordered_dict_zip_repeated_key :
  let ks := [PyStr "a"; PyStr "a"; PyStr "b"] in
  let vs := [PyInt 1; PyInt 2] in
  length ks <> length vs
  /\ exists od, _deserialize_ordered_dict (ks, vs) = Ok od
                /\ od_items od = [(PyStr "a", PyInt 2)]
                /\ length (od_items od) <> Nat.min (length ks) (length vs).
Proof.
  split; [simpl; lia|].
  exists (mkOrderedDict [(PyStr "a", PyInt 2)]).
  split; [reflexivity|]. split; [reflexivity|]. simpl. lia.
Qed.

(** An unhashable key among the paired keys makes the deserializer raise. *)
Example ordered_dict_zip_unhashable_key :
  _deserialize_ordered_dict ([PyList [PyInt 1]; PyStr "b"], [PyInt 1])
  = Raise TypeError.
Proof. reflexivity. Qed.

(** C10 (amended). For key and value lists of any lengths, equal or not, whose
    paired keys (the first [len(vs)] keys) are hashable,
    [_deserialize_ordered_dict] does not raise: it returns an OrderedDict with
    at most [min(len(ks), len(vs))] entries.  When the paired keys are also
    pairwise different, its items are exactly [zip(ks, vs)], the longer list cut
    to the shorter one, and it has [min(len(ks), len(vs))] entries. *)
Theorem ordered_dict_zip_truncates (ks vs : list pyobj) :
  forallb hashable (take (length vs) ks) = true ->
  exists od,
    _deserialize_ordered_dict (ks, vs) = Ok od
    /\ (length (od_items od) <= Nat.min (length ks) (length vs))%nat
    /\ (keys_distinct (take (length vs) ks) = true ->
        od_items od = zip ks vs
        /\ length (od_items od) = Nat.min (length ks) (length vs)).
Proof.
  intros Hh. rewrite <- zip_keys in Hh.
  unfold _deserialize_ordered_dict, OrderedDict_new. simpl.
  destruct (dict_update_hashable (zip ks vs) [] Hh) as (d & Hd & Hlen).
  exists (mkOrderedDict d). rewrite Hd. simpl.
  rewrite zip_length_min in Hlen. simpl in Hlen.
  split; [done|]. split; [done|].
  intros Hdist. rewrite <- zip_keys in Hdist.
  rewrite (dict_update_distinct (zip ks vs) []) in Hd by done.
  injection Hd as <-. simpl. by rewrite zip_length_min.
Qed.

(** Three keys and two values: the third key is dropped. *)
Lemma ordered_dict_zip_truncates_abc :
  let ks := [PyStr "a"; PyStr "b"; PyStr "c"] in
  let vs := [PyInt 1; PyInt 2] in
  exists od,
    _deserialize_ordered_dict (ks, vs) = Ok od
    /\ od_items od = [(PyStr "a", PyInt 1); (PyStr "b", PyInt 2)]
    /\ length (od_items od) = Nat.min (length ks) (length vs).
Proof.
  intros ks vs.
  destruct (ordered_dict_zip_truncates ks vs eq_refl) as (od & Hod & _ & Hzip).
  destruct (Hzip eq_refl) as [Hitems Hlen].
  exists od. by repeat split.
Defined.

(** ** The defaultdict codec *)

(** C8, as stated, fails for a defaultdict whose [default_factory] is not
    callable: the attribute can be set to any object once the defaultdict
    exists ([d.default_factory = 5]), the serializer sends it as it is, and
    [defaultdict(5, ...)] raises [TypeError]. *)
Lemma default_dict_factory_not_callable :
  let obj := mkdefaultdict (PyInt 5) [(PyStr "a", PyInt 1)] in
  dict_wf (dd_items obj) = true
  /\ _serialize_default_dict obj = ([PyStr "a"], [PyInt 1], PyInt 5)
  /\ _deserialize_default_dict (_serialize_default_dict obj) = Raise TypeError.
Proof. by repeat split. Qed.

(** C8 (amended). For a defaultdict whose [default_factory] is callable or
    [None], serializing with [_serialize_default_dict] and deserializing the
    result with [_deserialize_default_dict] returns a defaultdict with the
    same items (hence the same key-value mapping) and the same
    [default_factory]. *)
Theorem default_dict_roundtrip (obj : defaultdict) :
  dict_wf (dd_items obj) = true ->
  (callable (default_factory obj) || is_none (default_factory obj)) = true ->
  _deserialize_default_dict (_serialize_default_dict obj) = Ok obj.
Proof.
  intros Hwf Hf. destruct obj as [f d].
  unfold _deserialize_default_dict, _serialize_default_dict, defaultdict_new.
  simpl in *. by rewrite Hf, dict_update_wf.
Qed.

(** A defaultdict of lists, and one without a factory. *)
Lemma default_dict_roundtrip_list :
  let obj := mkdefaultdict (PyFunc "list")
               [(PyStr "x", PyList [PyInt 1]); (PyInt 7, PyList [])] in
  let obj' := mkdefaultdict PyNone [(PyTuple [PyInt 1; PyStr "a"], PyInt 2)] in
  _deserialize_default_dict (_serialize_default_dict obj) = Ok obj
  /\ _deserialize_default_dict (_serialize_default_dict obj') = Ok obj'.
Proof.
  split.
  - exact (default_dict_roundtrip
             (mkdefaultdict (PyFunc "list")
                [(PyStr "x", PyList [PyInt 1]); (PyInt 7, PyList [])])
             eq_refl eq_refl).
  - exact (default_dict_roundtrip
             (mkdefaultdict PyNone [(PyTuple [PyInt 1; PyStr "a"], PyInt 2)])
             eq_refl eq_refl).
Defined.

(** ** Printing and reading integers *)

Lemma digit_value_char (d : Z) :
  0 <= d < 10 -> digit_value (digit_char d) = Some d.
Proof.
  intros Hd. unfold digit_value, digit_char.
  rewrite N_ascii_embedding by lia.
  rewrite Z2N.id by lia.
  destruct (48 <=? 48 + d) eqn:H1; [|lia].
  destruct (48 + d <=? 57) eqn:H2; [|lia].
  simpl. f_equal. lia.
Qed.

Lemma is_digit_char (d : Z) : 0 <= d < 10 -> is_digit (digit_char d) = true.
Proof. intros Hd. unfold is_digit. by rewrite digit_value_char. Qed.

Lemma is_digit_not_space (c : ascii) : is_digit c = true -> is_space c = false.
Proof.
  unfold is_digit, digit_value, is_space.
  set (n := Z.of_N (N_of_ascii c)).
  destruct (48 <=? n) eqn:H1; [|done].
  destruct (n <=? 57) eqn:H2; [|done].
  intros _.
  destruct (n =? 32) eqn:H3; [lia|].
  destruct (n <=? 13) eqn:H4; [lia|].
  destruct (n =? 133) eqn:H5; [lia|].
  destruct (n =? 160) eqn:H6; [lia|].
  by rewrite andb_false_r.
Qed.

(** A digit is not a sign and not an underscore. *)
Lemma is_digit_not_char (c c' : ascii) :
  is_digit c = true -> is_digit c' = false -> Ascii.eqb c c' = false.
Proof.
  intros Hc Hc'. destruct (Ascii.eqb c c') eqn:Heq; [|done].
  apply Ascii.eqb_eq in Heq. congruence.
Qed.

Lemma digits_acc_all_digits (fuel : nat) (n : Z) (acc : string) :
  all_digits acc = true -> all_digits (digits_acc fuel n acc) = true.
Proof.
  revert n acc. induction fuel as [|fuel IH]; intros n acc Hacc; simpl; [done|].
  assert (all_digits (String (digit_char (n mod 10)) acc) = true) as Hacc'.
  { simpl. rewrite is_digit_char, Hacc; [done|]. apply Z.mod_pos_bound. lia. }
  destruct (n <? 10); [done | by apply IH].
Qed.

Lemma digits_acc_nonempty (fuel : nat) (n : Z) (c : ascii) (acc : string) :
  digits_acc fuel n (String c acc) <> EmptyString.
Proof.
  revert n c acc. induction fuel as [|fuel IH]; intros n c acc; simpl; [done|].
  destruct (n <? 10); [done | apply IH].
Qed.

Lemma decimal_all_digits (n : Z) : all_digits (decimal n) = true.
Proof. by apply digits_acc_all_digits. Qed.

Lemma decimal_nonempty (n : Z) : decimal n <> EmptyString.
Proof.
  unfold decimal. simpl. destruct (n <? 10); [done|].
  apply digits_acc_nonempty.
Qed.

Lemma digits_acc_S (fuel : nat) (n : Z) (acc : string) :
  digits_acc (S fuel) n acc
  = if n <? 10 then String (digit_char (n mod 10)) acc
    else digits_acc fuel (n / 10) (String (digit_char (n mod 10)) acc).
Proof. done. Qed.

(** With enough fuel, reading back the digits of [n] in front of [acc] is
    reading [acc] after the value [n]. *)
Lemma parse_digits_acc (fuel : nat) (n : Z) (acc : string) :
  0 <= n < 2 ^ Z.of_nat (S fuel) ->
  parse_digits (digits_acc (S fuel) n acc) 0 = parse_digits acc n.
Proof.
  revert n acc. induction fuel as [|fuel IH]; intros n acc Hn.
  - change (2 ^ Z.of_nat 1) with 2 in Hn. simpl.
    destruct (n <? 10) eqn:Hlt; [|lia].
    simpl. rewrite digit_value_char by (apply Z.mod_pos_bound; lia).
    f_equal. rewrite Z.mod_small; lia.
  - rewrite digits_acc_S.
    assert (Hdiv : n = 10 * (n / 10) + n mod 10) by (apply Z.div_mod; lia).
    pose proof (Z.mod_pos_bound n 10 ltac:(lia)) as Hmod.
    destruct (n <? 10) eqn:Hlt.
    + cbn [parse_digits]. rewrite digit_value_char by done.
      f_equal. rewrite Z.mod_small; lia.
    + rewrite IH.
      * cbn [parse_digits]. rewrite digit_value_char by done. f_equal. lia.
      * rewrite Nat2Z.inj_succ, Z.pow_succ_r in Hn by lia. split.
        -- apply Z.div_pos; lia.
        -- apply Z.div_lt_upper_bound; lia.
Qed.

Lemma log2_fuel (n : Z) : 0 <= n -> 0 <= n < 2 ^ Z.of_nat (S (Z.to_nat (Z.log2 n))).
Proof.
  intros Hn. rewrite Nat2Z.inj_succ, Z2Nat.id by apply Z.log2_nonneg.
  destruct (Z.eq_dec n 0) as [->|Hnz]; [done|].
  split; [done|]. apply Z.log2_spec. lia.
Qed.

Lemma parse_digits_decimal (n : Z) : 0 <= n -> parse_digits (decimal n) 0 = Some n.
Proof.
  intros Hn. unfold decimal. rewrite parse_digits_acc; [done|]. by apply log2_fuel.
Qed.

(** *** The number of digits *)

(** A number below [10 ^ k] has at most [k] digits. *)
Lemma digits_acc_length_le (fuel : nat) (n : Z) (acc : string) (k : nat) :
  (1 <= k)%nat -> 0 <= n < 10 ^ Z.of_nat k ->
  (String.length (digits_acc fuel n acc) <= k + String.length acc)%nat.
Proof.
  revert n acc k. induction fuel as [|fuel IH]; intros n acc k Hk Hn.
  - simpl. lia.
  - rewrite digits_acc_S. destruct (n <? 10) eqn:Hlt; [simpl; lia|].
    destruct k as [|[|k]]; [lia|change (10 ^ Z.of_nat 1) with 10 in Hn; lia|].
    specialize (IH (n / 10) (String (digit_char (n mod 10)) acc) (S k)).
    cbn [String.length] in IH. etrans; [apply IH; [lia|]|lia].
    rewrite (Nat2Z.inj_succ (S k)), Z.pow_succ_r in Hn by lia. split.
    + apply Z.div_pos; lia.
    + apply Z.div_lt_upper_bound; lia.
Qed.

(** A number from [10 ^ k] on has more than [k] digits. *)
Lemma digits_acc_length_gt (fuel : nat) (n : Z) (acc : string) (k : nat) :
  10 ^ Z.of_nat k <= n < 2 ^ Z.of_nat (S fuel) ->
  (S k + String.length acc <= String.length (digits_acc (S fuel) n acc))%nat.
Proof.
  revert n acc k. induction fuel as [|fuel IH]; intros n acc k Hn.
  - change (2 ^ Z.of_nat 1) with 2 in Hn.
    assert (0 < 10 ^ Z.of_nat k) by (apply Z.pow_pos_nonneg; lia).
    destruct k as [|k].
    + simpl. destruct (n <? 10); simpl; lia.
    + rewrite Nat2Z.inj_succ, Z.pow_succ_r in Hn by lia.
      assert (0 < 10 ^ Z.of_nat k) by (apply Z.pow_pos_nonneg; lia). lia.
  - rewrite digits_acc_S.
    assert (0 < 10 ^ Z.of_nat k) as Hpos by (apply Z.pow_pos_nonneg; lia).
    destruct (n <? 10) eqn:Hlt.
    + destruct k as [|k]; [simpl; lia|].
      rewrite Nat2Z.inj_succ, Z.pow_succ_r in Hn by lia.
      assert (0 < 10 ^ Z.of_nat k) by (apply Z.pow_pos_nonneg; lia). lia.
    + assert (n / 10 < 2 ^ Z.of_nat (S fuel)) as Hup.
      { destruct Hn as [_ Hn].
        rewrite (Nat2Z.inj_succ (S fuel)), Z.pow_succ_r in Hn by lia.
        apply Z.div_lt_upper_bound; lia. }
      destruct k as [|k].
      * specialize (IH (n / 10) (String (digit_char (n mod 10)) acc) O).
        cbn [String.length] in IH. etrans; [|apply IH]; [lia|].
        split; [|done]. change (10 ^ Z.of_nat 0) with 1.
        apply Z.div_le_lower_bound; lia.
      * specialize (IH (n / 10) (String (digit_char (n mod 10)) acc) k).
        cbn [String.length] in IH. etrans; [|apply IH]; [lia|].
        split; [|done].
        rewrite Nat2Z.inj_succ, Z.pow_succ_r in Hn by lia.
        apply Z.div_le_lower_bound; lia.
Qed.

Lemma decimal_length_le (n : Z) (k : nat) :
  (1 <= k)%nat -> 0 <= n < 10 ^ Z.of_nat k -> (String.length (decimal n) <= k)%nat.
Proof.
  intros Hk Hn. unfold decimal.
  pose proof (digits_acc_length_le (S (Z.to_nat (Z.log2 n))) n "" k Hk Hn) as H.
  simpl in H. simpl. lia.
Qed.

Lemma decimal_length_gt (n : Z) (k : nat) :
  10 ^ Z.of_nat k <= n -> (k < String.length (decimal n))%nat.
Proof.
  intros Hn. unfold decimal.
  assert (0 < 10 ^ Z.of_nat k) as Hpos by (apply Z.pow_pos_nonneg; lia).
  pose proof (log2_fuel n ltac:(lia)) as Hfuel.
  pose proof (digits_acc_length_gt (Z.to_nat (Z.log2 n)) n "" k ltac:(lia)) as H.
  cbn [String.length] in H. lia.
Qed.

(** *** Reading the decimal form *)

Lemma scan_all_digits (underscores : bool) (s : string) (acc : Z) (digits : nat) :
  all_digits s = true ->
  scan_digits underscores s acc digits false
  = (v ← parse_digits s acc; Some (v, (digits + String.length s)%nat, EmptyString)).
Proof.
  revert acc digits. induction s as [|c s IH]; intros acc digits Hs.
  - simpl. by rewrite Nat.add_0_r.
  - simpl in Hs. apply andb_prop in Hs as [Hc Hs]. unfold is_digit in Hc.
    cbn [scan_digits parse_digits String.length].
    destruct (digit_value c) as [d|]; [|done].
    rewrite IH by done. by rewrite Nat.add_succ_r.
Qed.

Lemma int_of_digits_decimal (py : interpreter) (negative : bool) (m : Z) :
  0 <= m ->
  exceeds_max_str_digits py (String.length (decimal m))
    (String.length (decimal m)) = false ->
  int_of_digits py negative (decimal m) = Ok (if negative then - m else m).
Proof.
  intros Hm Hlimit. unfold int_of_digits.
  pose proof (decimal_all_digits m) as Hall.
  pose proof (decimal_nonempty m) as Hne.
  rewrite scan_all_digits, parse_digits_decimal by done. simpl.
  rewrite Hlimit.
  destruct (decimal m) as [|c s]; [done|].
  simpl in Hall. apply andb_prop in Hall as [Hc _].
  cbn [starts_with_underscore]. unfold is_underscore.
  by rewrite (is_digit_not_char c "_" Hc eq_refl).
Qed.

Lemma exceeds_longer (py : interpreter) (digits : nat) :
  exceeds_max_str_digits py (S digits) digits = false ->
  exceeds_max_str_digits py digits digits = false.
Proof.
  unfold exceeds_max_str_digits, _PY_LONG_MAX_STR_DIGITS_THRESHOLD.
  destruct (0 <? int_max_str_digits py)%nat; [|by rewrite !andb_false_r].
  destruct (int_max_str_digits py <? digits)%nat; [|by rewrite !andb_false_r].
  rewrite !andb_true_r. intros H%Nat.ltb_ge. apply Nat.ltb_ge. lia.
Qed.

(** What [str] prints [int] reads back, under any limit that let [str] print
    it. *)
Lemma py_int_decimal_literal (py : interpreter) (n : Z) :
  str_int py n = Ok (decimal_literal n) -> py_int py (decimal_literal n) = Ok n.
Proof.
  unfold str_int, py_int, decimal_literal.
  destruct (n <? 0) eqn:Hneg.
  - cbn [String.length pred]. 
    destruct (exceeds_max_str_digits py _ _) eqn:Hlimit; [done|]. intros _.
    change (skip_space (String "-" (decimal (- n)))) with (String "-" (decimal (- n))).
    change (split_sign (String "-" (decimal (- n)))) with (true, decimal (- n)).
    cbv beta iota.
    rewrite int_of_digits_decimal; [f_equal; lia|lia|by apply exceeds_longer].
  - destruct (exceeds_max_str_digits py _ _) eqn:Hlimit; [done|]. intros _.
    pose proof (decimal_all_digits n) as Hall.
    pose proof (decimal_nonempty n) as Hne.
    pose proof (int_of_digits_decimal py false n ltac:(lia) Hlimit) as Hint.
    destruct (decimal n) as [|c s]; [done|].
    simpl in Hall. apply andb_prop in Hall as [Hc _].
    cbn [skip_space]. rewrite (is_digit_not_space c Hc).
    cbn [split_sign].
    by rewrite (is_digit_not_char c "-" Hc eq_refl),
      (is_digit_not_char c "+" Hc eq_refl).
Qed.

(** What [int] reads and what it refuses, as CPython 3.11 does: whitespace
    around the number and one underscore between two digits are read; an
    underscore elsewhere, a space after the sign, a separator character
    ([\x1c]) and a word are refused, and so is an underscore where the
    interpreter does not read them. *)
Example py_int_literals :
  py_int cpython_3_11 " 42 " = Ok 42
  /\ py_int cpython_3_11 "-007" = Ok (-7)
  /\ py_int cpython_3_11 "+1_000" = Ok 1000
  /\ py_int cpython_3_11 (String (ascii_of_nat 160) "42") = Ok 42
  /\ py_int cpython_3_11 "_1" = Raise ValueError
  /\ py_int cpython_3_11 "1_" = Raise ValueError
  /\ py_int cpython_3_11 "1__0" = Raise ValueError
  /\ py_int cpython_3_11 "- 1" = Raise ValueError
  /\ py_int cpython_3_11 "4 2" = Raise ValueError
  /\ py_int cpython_3_11 "" = Raise ValueError
  /\ py_int cpython_3_11 (String (ascii_of_nat 28) "42") = Raise ValueError
  /\ py_int cpython_3_11 "True" = Raise ValueError
  /\ py_int (unlimited false) "1_000" = Raise ValueError.
Proof. by repeat split. Qed.

(** [str] prints every integer that has no more digits than the limit, and
    every integer when there is no limit. *)
Lemma str_int_within (py : interpreter) (n : Z) :
  int_max_str_digits py = 0%nat
  \/ Z.abs n < 10 ^ Z.of_nat (int_max_str_digits py) ->
  str_int py n = Ok (decimal_literal n).
Proof.
  intros Hlimit. unfold str_int.
  assert (exceeds_max_str_digits py (String.length (decimal_literal n))
            (if n <? 0 then pred (String.length (decimal_literal n))
             else String.length (decimal_literal n)) = false) as ->; [|done].
  unfold exceeds_max_str_digits.
  destruct Hlimit as [->|Hlt]; [by rewrite andb_false_r|].
  destruct (int_max_str_digits py) as [|limit] eqn:HL; [by rewrite andb_false_r|].
  apply andb_false_intro2, Nat.ltb_ge. unfold decimal_literal.
  destruct (n <? 0) eqn:Hneg; cbn [String.length pred];
    apply decimal_length_le; lia.
Qed.

(** It refuses every integer that has more digits than a limit of 640 digits
    or more. *)
Lemma str_int_exceeds (py : interpreter) (n : Z) :
  (_PY_LONG_MAX_STR_DIGITS_THRESHOLD <= int_max_str_digits py)%nat ->
  10 ^ Z.of_nat (int_max_str_digits py) <= Z.abs n ->
  str_int py n = Raise ValueError.
Proof.
  intros Hthreshold Hn. unfold str_int.
  assert (exceeds_max_str_digits py (String.length (decimal_literal n))
            (if n <? 0 then pred (String.length (decimal_literal n))
             else String.length (decimal_literal n)) = true) as ->; [|done].
  unfold exceeds_max_str_digits, _PY_LONG_MAX_STR_DIGITS_THRESHOLD in *.
  unfold decimal_literal.
  destruct (n <? 0) eqn:Hneg; cbn [String.length pred].
  - pose proof (decimal_length_gt (- n) (int_max_str_digits py) ltac:(lia)).
    rewrite !andb_true_iff, !Nat.ltb_lt. lia.
  - pose proof (decimal_length_gt n (int_max_str_digits py) ltac:(lia)).
    rewrite !andb_true_iff, !Nat.ltb_lt. lia.
Qed.

(** At a limit of 640 digits or more: the first integer [str] refuses is
    [10 ^ limit], and the one before it is printed. *)
Lemma str_int_at_limit (py : interpreter) (n : Z) :
  (_PY_LONG_MAX_STR_DIGITS_THRESHOLD <= int_max_str_digits py)%nat ->
  n = 10 ^ Z.of_nat (int_max_str_digits py) ->
  str_int py n = Raise ValueError
  /\ str_int py (n - 1) = Ok (decimal_literal (n - 1)).
Proof.
  intros Hthreshold Hn.
  assert (0 < n) as Hpos by (rewrite Hn; apply Z.pow_pos_nonneg; lia).
  split.
  - apply str_int_exceeds; [done|]. rewrite <- Hn. lia.
  - apply str_int_within. right. rewrite <- Hn. lia.
Qed.

(** ** The int codec *)

(** C7, as stated, fails for the integers with more digits than the
    interpreter converts: CPython 3.11 starts with a limit of 4300 digits,
    under which [str(10 ** 4300)] raises [ValueError], so the serializer
    returns no string for that integer; the integer before it, which has 4300
    digits, is still printed. *)
Lemma int_codec_digit_limit :
  let n := 10 ^ 4300 in
  int_max_str_digits cpython_3_11 = 4300%nat
  /\ int_custom_serializer cpython_3_11 (PyInt n) = Some (Raise ValueError)
  /\ int_custom_serializer cpython_3_11 (PyInt (n - 1))
     = Some (Ok (decimal_literal (n - 1))).
Proof.
  intros n. split; [reflexivity|].
  assert (_PY_LONG_MAX_STR_DIGITS_THRESHOLD
          <= int_max_str_digits cpython_3_11)%nat as Hthreshold
    by (apply (bool_decide_unpack _); by vm_compute).
  destruct (str_int_at_limit cpython_3_11 n Hthreshold eq_refl) as [Hn Hpred].
  split; [exact (f_equal Some Hn) | exact (f_equal Some Hpred)].
Qed.

(** C7 (amended). For every integer [n] that has no more decimal digits than
    the interpreter converts ([sys.get_int_max_str_digits()]; every integer
    when that is 0), the int codec's serializer gives the string [str(n)], and
    its deserializer applied to that string gives back exactly [n]. *)
Theorem int_codec_roundtrip (py : interpreter) (n : Z) :
  int_max_str_digits py = 0%nat
  \/ Z.abs n < 10 ^ Z.of_nat (int_max_str_digits py) ->
  exists data,
    int_custom_serializer py (PyInt n) = Some (Ok data)
    /\ int_custom_deserializer py data = Ok (PyInt n).
Proof.
  intros Hlimit. exists (decimal_literal n).
  pose proof (str_int_within py n Hlimit) as Hstr.
  unfold int_custom_serializer, int_custom_deserializer. simpl.
  split; [by rewrite Hstr|]. by rewrite py_int_decimal_literal.
Qed.

(** A long integer under the limit of CPython 3.11, and a negative one in an
    interpreter without the limit. *)
Lemma int_codec_roundtrip_long :
  (exists data,
     int_custom_serializer cpython_3_11 (PyInt (2 ^ 64)) = Some (Ok data)
     /\ int_custom_deserializer cpython_3_11 data = Ok (PyInt (2 ^ 64)))
  /\ (exists data,
        int_custom_serializer (unlimited false) (PyInt (- 10 ^ 30))
        = Some (Ok data)
        /\ int_custom_deserializer (unlimited false) data
           = Ok (PyInt (- 10 ^ 30))).
Proof.
  split.
  - apply (int_codec_roundtrip cpython_3_11 (2 ^ 64)). right.
    apply Z.lt_le_trans with (10 ^ 20); [by vm_compute|].
    apply Z.pow_le_mono_r; [lia|]. simpl. lia.
  - apply (int_codec_roundtrip (unlimited false) (- 10 ^ 30)). by left.
Defined.

(** C9. For each of the two booleans, the int codec's serializer gives the
    string ["True"] or ["False"], and its deserializer applied to that string
    raises [ValueError]: the codec does not round-trip a bool. *)
Theorem int_codec_bool_raises (py : interpreter) (b : bool) :
  exists data,
    int_custom_serializer py (PyBool b) = Some (Ok data)
    /\ data = (if b then "True" else "False")
    /\ int_custom_deserializer py data = Raise ValueError.
Proof.
  exists (if b then "True" else "False").
  destruct py as [limit []], b; done.
Qed.

(** ** Arrays and nested lists *)










(** An element of an array is stored back as it is. *)
Lemma setitem_scalar (k : scalar_kind) (o : pyobj) :
  is_scalar_of k o = true -> setitem k o = Some o.
Proof.
  destruct k, o; try done; simpl; by intros ->.
Qed.

Lemma mapM_setitem_scalars (k : scalar_kind) (elts : list pyobj) :
  Forall (fun o => is_scalar_of k o = true) elts ->
  mapM (setitem k) elts = Some elts.
Proof.
  intros Helts. apply mapM_Some. 
  induction Helts as [|o elts Ho _ IH]; constructor; [by apply setitem_scalar|done].
Qed.

(** ** The numpy list codec *)


(** So does an array whose elements are tuples. *)
Example numpy_list_codec_opens_tuples :
  _deserialize_numpy_array_list
    (_serialize_numpy_array_list
       (mkndarray dtype_object [2%nat]
          [PyTuple [PyInt 1; PyInt 2]; PyTuple [PyInt 3; PyInt 4]]))
  = Some (mkndarray dtype_object [2%nat; 2%nat]
            [PyInt 1; PyInt 2; PyInt 3; PyInt 4]).
Proof. reflexivity. Qed.

(** An axis of length 0 before another axis is lost as well, whatever the
    dtype: an empty array of 64-bit integers of shape [(0, 3)] comes back with
    shape [(0,)]. *)
Example numpy_list_codec_empty_axis :
  _deserialize_numpy_array_list
    (_serialize_numpy_array_list (mkndarray "<i8" [0%nat; 3%nat] []))
  = Some (mkndarray "<i8" [0%nat] []).
Proof. reflexivity. Qed.



(** ** Running the registration script *)

Lemma updates_register_type (l : loc) (ty : pytype) (tag : string)
    (ser deser : funref) :
  updates l (ctx_register ty tag ser deser) (register_type l ty tag ser deser).
Proof. by intros h. Qed.

Lemma updates_seq (l : loc) (f g : Ctx -> Ctx) (m k : Run unit) :
  updates l f m -> updates l g k -> updates l (g ∘ f) (m ;; k).
Proof.
  intros Hm Hk h. unfold mbind, M_bind. rewrite Hm. cbv beta iota.
  by rewrite Hk, alter_alter_eq.
Qed.

Lemma updates_skip (l : loc) : updates l id (mret tt).
Proof. intros h. unfold mret, M_ret. by rewrite alter_id. Qed.

Lemma updates_when (l : loc) (f : Ctx -> Ctx) (cond : bool) (m : Run unit) :
  updates l f m -> updates l (if cond then f else id) (when cond m).
Proof. destruct cond; [done|]. intros _. apply updates_skip. Qed.

Lemma updates_for_each {A : Type} (l : loc) (g : A -> Ctx -> Ctx)
    (xs : list A) (body : A -> Run unit) :
  (forall x, updates l (g x) (body x)) ->
  updates l (fun c => foldl (fun c x => g x c) c xs) (for_each xs body).
Proof.
  intros Hbody. induction xs as [|x xs IH]; simpl.
  - apply updates_skip.
  - apply (updates_seq l (g x) _ _ _ (Hbody x) IH).
Qed.

(** A computation that updates the context at [l] leaves every other context
    as it is, and allocates nothing. *)
Lemma updates_lookup_ne (l l' : loc) (f : Ctx -> Ctx) (m : Run unit) (h : Store) :
  updates l f m -> l ≠ l' -> (m h).2 !! l' = h !! l'.
Proof. intros Hm Hne. rewrite Hm. simpl. by rewrite lookup_alter_ne. Qed.

Lemma updates_lookup (l : loc) (f : Ctx -> Ctx) (m : Run unit) (h : Store) :
  updates l f m -> (m h).2 !! l = f <$> h !! l.
Proof. intros Hm. rewrite Hm. simpl. by rewrite lookup_alter_eq. Qed.

Lemma updates_dom (l : loc) (f : Ctx -> Ctx) (m : Run unit) (h : Store) :
  updates l f m -> dom (m h).2 = dom h.
Proof. intros Hm. rewrite Hm. simpl. by rewrite dom_alter_L. Qed.

Ltac solve_updates :=
  repeat first
    [ apply updates_register_type
    | apply updates_skip
    | eapply updates_seq
    | eapply updates_when
    | eapply updates_for_each; intros ? ].

Lemma register_default_updates (env : environment) (l : loc) :
  exists f, updates l f (register_default_serialization_handlers env l)
    /\ (forall c, registry (f c) !! np_ndarray = Some ndarray_list_entry)
    /\ (forall c, tags (f c) !! "np.array" = Some ndarray_list_entry).
Proof.
  eexists. split.
  { unfold register_default_serialization_handlers. solve_updates. }
  split; intros c; destruct (has_torch env); simpl;
    repeat (rewrite lookup_insert_ne by done); by rewrite lookup_insert_eq.
Qed.

Lemma pandas_arrow_updates (env : environment) (l : loc) :
  exists f, updates l f (_register_pandas_arrow_handlers env l).
Proof. eexists. unfold _register_pandas_arrow_handlers. solve_updates. Qed.

Lemma custom_pandas_updates (env : environment) (l : loc) :
  exists f, updates l f (_register_custom_pandas_handlers env l)
    /\ (forall c, registry (f c) !! np_ndarray = registry c !! np_ndarray)
    /\ (forall c, tags (f c) !! "np.array" = tags c !! "np.array").
Proof.
  eexists. split.
  { unfold _register_custom_pandas_handlers. solve_updates. }
  split; intros c; destruct (has_pandas env); simpl;
    by repeat (rewrite lookup_insert_ne by done).
Qed.

Lemma numpy_pickle_updates (l : loc) :
  updates l
    (ctx_register np_ndarray "np.array"
       _serialize_numpy_array_pickle _deserialize_numpy_array_pickle)
    (register_numpy_array_pickle l).
Proof. apply updates_register_type. Qed.

(** [clone] allocates a new context, a copy of the cloned one, and leaves the
    existing contexts as they are. *)
Lemma clone_spec (l : loc) (c : Ctx) (h : Store) :
  h !! l = Some c ->
  ((clone l h).1 ∉ dom h)
  /\ (clone l h).2 !! (clone l h).1 = Some c
  /\ (forall l', l' ∈ dom h -> (clone l h).2 !! l' = h !! l').
Proof.
  intros Hl. unfold clone. simpl. rewrite Hl.
  pose proof (is_fresh (dom h)) as Hfresh.
  split; [done|]. split; [by rewrite lookup_insert_eq|].
  intros l' Hl'. rewrite lookup_insert_ne; [done|]. by intros <-.
Qed.

(** The script, statement by statement: the clone is a new object and starts
    as a copy of the default context. *)
Lemma module_body_steps (env : environment) (dflt : loc) (h0 : Store) (c0 : Ctx) :
  h0 !! dflt = Some c0 ->
  let h1 := (register_default_serialization_handlers env dflt h0).2 in
  let pandas := (clone dflt h1).1 in
  let h2 := (clone dflt h1).2 in
  let h3 := (_register_pandas_arrow_handlers env dflt h2).2 in
  let h4 := (_register_custom_pandas_handlers env pandas h3).2 in
  let h5 := (register_numpy_array_pickle pandas h4).2 in
  module_body env dflt h0 = (pandas, h5)
  /\ pandas <> dflt
  /\ h2 !! pandas = h1 !! dflt
  /\ h2 !! dflt = h1 !! dflt.
Proof.
  intros H0 h1 pandas h2 h3 h4 h5.
  destruct (register_default_updates env dflt) as (f1 & Hf1 & _).
  destruct (pandas_arrow_updates env dflt) as (f3 & Hf3).
  destruct (custom_pandas_updates env pandas) as (f4 & Hf4 & _).
  pose proof (numpy_pickle_updates pandas) as Hf5.
  assert (h1 !! dflt = Some (f1 c0)) as H1.
  { unfold h1. by rewrite (updates_lookup _ _ _ _ Hf1), H0. }
  destruct (clone_spec dflt (f1 c0) h1 H1) as (Hfresh & Hcopy & Hkeep).
  fold pandas in Hfresh, Hcopy. fold h2 in Hcopy, Hkeep.
  assert (dflt ∈ dom h1) as Hdom by (apply elem_of_dom; eauto).
  split; [|split; [|split]].
  - unfold module_body, mbind, M_bind, mret, M_ret.
    rewrite (Hf1 h0). cbv beta iota.
    replace (alter f1 dflt h0) with h1 by (unfold h1; by rewrite (Hf1 h0)).
    rewrite (surjective_pairing (clone dflt h1)). fold pandas h2.
    cbv beta iota.
    rewrite (Hf3 h2). cbv beta iota.
    replace (alter f3 dflt h2) with h3 by (unfold h3; by rewrite (Hf3 h2)).
    rewrite (Hf4 h3). cbv beta iota.
    replace (alter f4 pandas h3) with h4 by (unfold h4; by rewrite (Hf4 h3)).
    rewrite (Hf5 h4). cbv beta iota.
    unfold h5. by rewrite (Hf5 h4).
  - by intros Heq; rewrite Heq in Hfresh.
  - by rewrite Hcopy, H1.
  - by apply Hkeep.
Qed.

(** ** Contexts and their clones *)

(** C2. Importing the module from any store that holds the default context:
    the clone [pandas_serialization_context] is a new object that starts as a
    copy of the default context; the registrations made on the default
    context after the clone leave the clone as it is; the registrations and
    the override made on the clone leave the default context, hence its
    dispatch results, as they are; and so does any later registration on
    either of the two. *)
Theorem clone_isolation (env : environment) (dflt : loc) (h0 : Store) (c0 : Ctx) :
  h0 !! dflt = Some c0 ->
  let h1 := (register_default_serialization_handlers env dflt h0).2 in
  let pandas := (clone dflt h1).1 in
  let h2 := (clone dflt h1).2 in
  let h3 := (_register_pandas_arrow_handlers env dflt h2).2 in
  let h4 := (_register_custom_pandas_handlers env pandas h3).2 in
  let h5 := (register_numpy_array_pickle pandas h4).2 in
  module_body env dflt h0 = (pandas, h5)
  /\ pandas <> dflt
  /\ h2 !! pandas = h1 !! dflt
  /\ h2 !! dflt = h1 !! dflt
  /\ h3 !! pandas = h2 !! pandas
  /\ h4 !! dflt = h3 !! dflt
  /\ h5 !! dflt = h3 !! dflt
  /\ (forall ty, resolve ancestors (context_at dflt h5) ty
                 = resolve ancestors (context_at dflt h3) ty)
  /\ (forall (h : Store) ty tag ser deser,
        (register_type pandas ty tag ser deser h).2 !! dflt = h !! dflt)
  /\ (forall (h : Store) ty tag ser deser,
        (register_type dflt ty tag ser deser h).2 !! pandas = h !! pandas).
Proof.
  intros H0 h1 pandas h2 h3 h4 h5.
  destruct (module_body_steps env dflt h0 c0 H0) as (Hrun & Hne & Hcopy & Hkeep).
  fold h1 pandas h2 h3 h4 h5 in Hrun, Hcopy, Hkeep. fold h1 pandas in Hne.
  destruct (pandas_arrow_updates env dflt) as (f3 & Hf3).
  destruct (custom_pandas_updates env pandas) as (f4 & Hf4 & _).
  pose proof (numpy_pickle_updates pandas) as Hf5.
  assert (h4 !! dflt = h3 !! dflt) as H43.
  { unfold h4. by rewrite (updates_lookup_ne _ _ _ _ _ Hf4). }
  assert (h5 !! dflt = h3 !! dflt) as H53.
  { unfold h5. by rewrite (updates_lookup_ne _ _ _ _ _ Hf5). }
  do 4 (split; [done|]).
  split; [unfold h3; by rewrite (updates_lookup_ne _ _ _ _ _ Hf3)|].
  do 2 (split; [done|]).
  split; [intros ty; unfold context_at; by rewrite H53|].
  split; intros h ty tag ser deser.
  - by apply (updates_lookup_ne pandas dflt _ _ h
                (updates_register_type _ _ _ _ _)).
  - by apply (updates_lookup_ne dflt pandas _ _ h
                (updates_register_type _ _ _ _ _)).
Qed.

Lemma clone_isolation_first_import :
  let env := mkEnv false true true true in
  initial_store !! 0%nat = Some empty_context
  /\ (imported env).1 <> 0%nat
  /\ (forall (h : Store) ty tag ser deser,
        (register_type (imported env).1 ty tag ser deser h).2 !! 0%nat
        = h !! 0%nat)
  /\ (forall (h : Store) ty tag ser deser,
        (register_type 0%nat ty tag ser deser h).2 !! (imported env).1
        = h !! (imported env).1).
Proof.
  intros env.
  destruct (clone_isolation env 0%nat initial_store empty_context eq_refl)
    as (Hrun & Hne & _ & _ & _ & _ & _ & _ & Hpandas & Hdefault).
  unfold imported. rewrite Hrun. simpl. by repeat split.
Defined.

(** ** Registering a type again *)

Lemma ctx_register_lookup {T : Type} `{Countable T} {F : Type}
    (anc : T -> list T) (ctx : SerializationContext T F)
    (ty : T) (tag : string) (ser deser : F) :
  registry (ctx_register ty tag ser deser ctx) !! ty
  = Some (mkEntry ty tag ser deser)
  /\ tags (ctx_register ty tag ser deser ctx) !! tag
     = Some (mkEntry ty tag ser deser)
  /\ resolve anc (ctx_register ty tag ser deser ctx) ty
     = Registered (mkEntry ty tag ser deser).
Proof.
  unfold resolve, ctx_register. simpl. by rewrite !lookup_insert_eq.
Qed.

(** C4. Registering a type under a tag makes the new entry the context's entry
    for the type and for the tag, whatever entry was there before: the last
    registration wins.  In the module: the clone inherits the list codec
    for [np.ndarray] and keeps it until [pandas_serialization_context] registers
    [np.ndarray] again under ['np.array']; from then on its entry for the type
    and the tag is the pickle codec, which is not the list codec. *)
Theorem register_type_last_wins :
  (forall (T : Type) `(Countable T) (F : Type) (anc : T -> list T)
          (ctx : SerializationContext T F) (ty : T) (tag : string)
          (ser deser : F),
      let ctx' := ctx_register ty tag ser deser ctx in
      registry ctx' !! ty = Some (mkEntry ty tag ser deser)
      /\ tags ctx' !! tag = Some (mkEntry ty tag ser deser)
      /\ resolve anc ctx' ty = Registered (mkEntry ty tag ser deser))
  /\ (forall (env : environment) (dflt : loc) (h0 : Store) (c0 : Ctx),
        h0 !! dflt = Some c0 ->
        let h1 := (register_default_serialization_handlers env dflt h0).2 in
        let pandas := (clone dflt h1).1 in
        let h2 := (clone dflt h1).2 in
        let h3 := (_register_pandas_arrow_handlers env dflt h2).2 in
        let h4 := (_register_custom_pandas_handlers env pandas h3).2 in
        let h5 := (register_numpy_array_pickle pandas h4).2 in
        module_body env dflt h0 = (pandas, h5)
        /\ registry (context_at pandas h2) !! np_ndarray
           = Some ndarray_list_entry
        /\ registry (context_at pandas h4) !! np_ndarray
           = Some ndarray_list_entry
        /\ tags (context_at pandas h4) !! "np.array" = Some ndarray_list_entry
        /\ registry (context_at pandas h5) !! np_ndarray
           = Some ndarray_pickle_entry
        /\ tags (context_at pandas h5) !! "np.array"
           = Some ndarray_pickle_entry
        /\ resolve ancestors (context_at pandas h5) np_ndarray
           = Registered ndarray_pickle_entry
        /\ ndarray_pickle_entry <> ndarray_list_entry).
Proof.
  split; [intros; by apply ctx_register_lookup|].
  intros env dflt h0 c0 H0 h1 pandas h2 h3 h4 h5.
  destruct (module_body_steps env dflt h0 c0 H0) as (Hrun & Hne & H2 & _).
  fold h1 pandas h2 h3 h4 h5 in Hrun, H2. fold h1 pandas in Hne.
  destruct (register_default_updates env dflt) as (f1 & Hf1 & Hreg1 & Htag1).
  destruct (pandas_arrow_updates env dflt) as (f3 & Hf3).
  assert (h3 !! pandas = h2 !! pandas) as H3.
  { unfold h3. by rewrite (updates_lookup_ne _ _ _ _ _ Hf3). }
  destruct (custom_pandas_updates env pandas) as (f4 & Hf4 & Hreg4 & Htag4).
  pose proof (numpy_pickle_updates pandas) as Hf5.
  assert (h2 !! pandas = Some (f1 c0)) as H2'.
  { rewrite H2. unfold h1. by rewrite (updates_lookup _ _ _ _ Hf1), H0. }
  assert (h4 !! pandas = Some (f4 (f1 c0))) as H4.
  { unfold h4. by rewrite (updates_lookup _ _ _ _ Hf4), H3, H2'. }
  assert (h5 !! pandas
          = Some (ctx_register np_ndarray "np.array"
                    _serialize_numpy_array_pickle
                    _deserialize_numpy_array_pickle (f4 (f1 c0)))) as H5.
  { unfold h5. by rewrite (updates_lookup _ _ _ _ Hf5), H4. }
  unfold context_at. rewrite H2', H4, H5. simpl.
  rewrite Hreg4, Htag4, Hreg1, Htag1.
  split; [done|]. do 3 (split; [done|]).
  split; [by rewrite lookup_insert_eq|].
  split; [by rewrite lookup_insert_eq|].
  split; [|done].
  unfold resolve. simpl. by rewrite lookup_insert_eq.
Qed.

Lemma register_type_last_wins_first_import :
  let env := mkEnv false true true true in
  registry (imported_pandas_context env) !! np_ndarray
  = Some ndarray_pickle_entry
  /\ tags (imported_pandas_context env) !! "np.array"
     = Some ndarray_pickle_entry
  /\ registry (imported_default_context env) !! np_ndarray
     = Some ndarray_list_entry.
Proof.
  intros env.
  destruct (proj2 register_type_last_wins env 0%nat initial_store
              empty_context eq_refl)
    as (Hrun & _ & _ & _ & Hreg & Htag & _).
  unfold imported_pandas_context, imported. rewrite Hrun.
  split; [exact Hreg|]. split; [exact Htag|]. by vm_compute.
Defined.

(** ** Deserializing an unknown tag *)

(** C5. In every context, deserializing under a tag that is not registered in
    the context raises the unregistered-tag error, whatever the representation
    and whatever the codecs do: no value is returned. *)
Theorem deserialize_unregistered_tag {T : Type} `{Countable T} {F Value : Type}
    (call : F -> Value -> result Value) (of_buffer : list Z -> Value)
    (of_tuple : list Value -> Value) (ctx : SerializationContext T F)
    (tag : string) (r : Representation) :
  tags ctx !! tag = None ->
  deserialize call of_buffer of_tuple ctx tag r = Raise (UnregisteredTag tag).
Proof. intros Htag. destruct r; simpl; by rewrite Htag. Qed.

(** The tag ['pd.Index'] is registered in [pandas_serialization_context] only:
    presented to the default context it raises. *)
Lemma deserialize_unregistered_tag_pd_Index :
  let env := mkEnv false true true true in
  tags (imported_default_context env) !! "pd.Index" = None
  /\ is_Some (tags (imported_pandas_context env) !! "pd.Index")
  /\ deserialize (fun (_ : funref) (v : pyobj) => Ok v)
       (fun bytes => PyList (PyInt <$> bytes)) PyList
       (imported_default_context env) "pd.Index" (Buffer [128; 4; 149])
     = Raise (UnregisteredTag "pd.Index").
Proof.
  intros env. split; [by vm_compute|]. split; [by vm_compute; eexists|].
  apply (deserialize_unregistered_tag (T := pytype)). by vm_compute.
Defined.

(** ** Type resolution *)

Lemma first_registered_app {T : Type} `{Countable T} {F : Type}
    (ctx : SerializationContext T F) (pre post : list T) (S : T)
    (e : RegistrationEntry T F) :
  Forall (fun A => registry ctx !! A = None) pre ->
  registry ctx !! S = Some e ->
  first_registered ctx (pre ++ S :: post) = Some e.
Proof.
  intros Hpre HS. induction Hpre as [|A pre HA _ IH]; simpl.
  - by rewrite HS.
  - by rewrite HA.
Qed.

(** A registered type is dispatched to its own entry. *)
Lemma resolve_exact {T : Type} `{Countable T} {F : Type}
    (anc : T -> list T) (ctx : SerializationContext T F) (ty : T)
    (e : RegistrationEntry T F) :
  registry ctx !! ty = Some e -> resolve anc ctx ty = Registered e.
Proof. intros Hty. unfold resolve. by rewrite Hty. Qed.

(** In the default context [bool] is not registered: a bool is dispatched to
    the entry of [int]. *)
Example resolve_bool :
  resolve ancestors
    (imported_default_context (mkEnv false true true true)) ty_bool
  = Registered (mkEntry ty_int "int"
                  fn_int_custom_serializer fn_int_custom_deserializer).
Proof. by vm_compute. Qed.

(** C6. When the type [U] of a value is not registered and [S] is the first
    registered type of its ancestry, read from the most specific to the least
    specific ancestor, the value is dispatched to the entry of [S]; a value
    whose type is [S] itself is dispatched to that entry by the exact match,
    which is tried first. *)
Theorem resolve_first_registered_ancestor {T : Type} `{Countable T} {F : Type}
    (anc : T -> list T) (ctx : SerializationContext T F) (U S : T)
    (pre post : list T) (e : RegistrationEntry T F) :
  registry ctx !! U = None ->
  anc U = pre ++ S :: post ->
  Forall (fun A => registry ctx !! A = None) pre ->
  registry ctx !! S = Some e ->
  resolve anc ctx U = Registered e
  /\ resolve anc ctx S = Registered e.
Proof.
  intros HU Hanc Hpre HS. split; [|by apply resolve_exact].
  unfold resolve.
  by rewrite HU, Hanc, (first_registered_app ctx pre post S e).
Qed.

(** Two subclasses of [np.ndarray] that are not registered, in the default
    context: [np.matrix], and [MaskedConstant], whose nearest ancestor
    [MaskedArray] is not registered either; both are dispatched to the entry
    of [np.ndarray]. *)
Lemma resolve_first_registered_ancestor_ndarray :
  let ctx := imported_default_context (mkEnv false true true true) in
  registry ctx !! np_ma_MaskedConstant = None
  /\ ancestors np_ma_MaskedConstant
     = [np_ma_MaskedArray] ++ np_ndarray :: [ty_object]
  /\ registry ctx !! np_ma_MaskedArray = None
  /\ registry ctx !! np_ndarray = Some ndarray_list_entry
  /\ resolve ancestors ctx np_ma_MaskedConstant = Registered ndarray_list_entry
  /\ resolve ancestors ctx np_matrix = Registered ndarray_list_entry.
Proof.
  intros ctx.
  assert (registry ctx !! np_ma_MaskedConstant = None) as HU
    by (by vm_compute).
  assert (registry ctx !! np_ma_MaskedArray = None) as HA by (by vm_compute).
  assert (registry ctx !! np_matrix = None) as HM by (by vm_compute).
  assert (registry ctx !! np_ndarray = Some ndarray_list_entry) as HS
    by (by vm_compute).
  do 4 (split; [done|]). split.
  - apply (resolve_first_registered_ancestor ancestors ctx
             np_ma_MaskedConstant np_ndarray [np_ma_MaskedArray] [ty_object]);
      [done..| |done].
    by repeat constructor.
  - by apply (resolve_first_registered_ancestor ancestors ctx
                np_matrix np_ndarray [] [ty_object]).
Defined.

(** * Further properties *)

(** ** Building a dictionary from pairs *)

(** [update] raises as soon as a key is unhashable, whatever the dictionary. *)
Lemma dict_update_unhashable (pairs d : items_t) :
  forallb hashable pairs.*1 = false -> dict_update d pairs = Raise TypeError.
Proof.
  revert d. induction pairs as [|[k v] pairs IH]; intros d Hh; simpl in *.
  - done.
  - unfold dict_setitem. destruct (hashable k); simpl in *; [by apply IH|done].
Qed.

Lemma keys_distinct_snoc (ks : list pyobj) (k : pyobj) :
  keys_distinct ks = true ->
  forallb (fun k0 => negb (py_eq k0 k)) ks = true ->
  keys_distinct (ks ++ [k]) = true.
Proof.
  induction ks as [|k0 ks IH]; simpl; [done|].
  intros [Hk0 Hks]%andb_prop [Hk Hall]%andb_prop.
  rewrite forallb_app, Hk0, IH by done. simpl. by rewrite Hk.
Qed.

(** Storing under a key keeps the keys, or adds the key after them when no
    key equals it. *)
Lemma dict_store_keys (d : items_t) (k v : pyobj) :
  (dict_store d k v).*1
  = if forallb (fun k0 => negb (py_eq k0 k)) d.*1 then d.*1 ++ [k] else d.*1.
Proof.
  induction d as [|[k0 v0] d IH]; [done|].
  cbn [dict_store]. rewrite !fmap_cons. cbn [fst forallb].
  destruct (py_eq k0 k); [done|].
  rewrite fmap_cons, IH. cbn [fst negb andb].
  by destruct (forallb _ _).
Qed.

Lemma dict_store_wf (d : items_t) (k v : pyobj) :
  hashable k = true -> dict_wf d = true -> dict_wf (dict_store d k v) = true.
Proof.
  intros Hk [Hh Hd]%andb_prop. unfold dict_wf.
  rewrite dict_store_keys.
  destruct (forallb (fun k0 => negb (py_eq k0 k)) d.*1) eqn:Hnew.
  - rewrite forallb_app, Hh, keys_distinct_snoc by done. simpl. by rewrite Hk.
  - by rewrite Hh, Hd.
Qed.

Lemma dict_update_keeps_wf (pairs d d' : items_t) :
  dict_wf d = true -> dict_update d pairs = Ok d' -> dict_wf d' = true.
Proof.
  revert d. induction pairs as [|[k v] pairs IH]; intros d Hwf Hup; simpl in *.
  - by injection Hup as <-.
  - unfold dict_setitem in Hup. destruct (hashable k) eqn:Hk; [|done].
    simpl in Hup. eapply IH; [|done]. by apply dict_store_wf.
Qed.

Lemma zip_values (ks vs : list pyobj) :
  (zip ks vs).*2 = take (length ks) vs.
Proof.
  revert vs. induction ks as [|k ks IH]; intros [|v vs]; simpl; try done.
  by rewrite IH.
Qed.

(** ** More of the OrderedDict codec *)

(** X1. [_deserialize_ordered_dict] raises exactly when one of the paired keys
    (the first [len(vs)] keys) is unhashable, and what it raises then is
    [TypeError]; with hashable paired keys it returns. *)
Theorem ordered_dict_deserialize_raises (ks vs : list pyobj) :
  match _deserialize_ordered_dict (ks, vs) with
  | Ok _ => forallb hashable (take (length vs) ks) = true
  | Raise e => e = TypeError /\ forallb hashable (take (length vs) ks) = false
  end.
Proof.
  unfold _deserialize_ordered_dict, OrderedDict_new. simpl.
  rewrite <- zip_keys.
  destruct (forallb hashable (zip ks vs).*1) eqn:Hh.
  - by destruct (dict_update_hashable (zip ks vs) [] Hh) as (d & -> & _).
  - by rewrite dict_update_unhashable.
Qed.

(** X2. Whatever the two lists, an OrderedDict that [_deserialize_ordered_dict]
    returns has hashable, pairwise different keys, and it goes through the
    codec unchanged: serializing and deserializing it again gives it back. *)
Theorem ordered_dict_deserialize_wf (data : list pyobj * list pyobj)
    (od : OrderedDict) :
  _deserialize_ordered_dict data = Ok od ->
  dict_wf (od_items od) = true
  /\ _deserialize_ordered_dict (_serialize_ordered_dict od) = Ok od.
Proof.
  unfold _deserialize_ordered_dict, OrderedDict_new. intros Hod.
  destruct (dict_update [] (zip data.1 data.2)) as [d|e] eqn:Hd; [|done].
  simpl in Hod. injection Hod as <-. simpl.
  assert (dict_wf d = true) as Hwf
    by exact (dict_update_keeps_wf _ [] d eq_refl Hd).
  split; [done|]. by rewrite dict_update_wf.
Qed.

(** A key given twice: the OrderedDict that comes back has it once. *)
Lemma ordered_dict_deserialize_wf_repeated :
  let data := ([PyStr "a"; PyStr "a"; PyStr "b"], [PyInt 1; PyInt 2; PyInt 3]) in
  let od := mkOrderedDict [(PyStr "a", PyInt 2); (PyStr "b", PyInt 3)] in
  _deserialize_ordered_dict data = Ok od
  /\ dict_wf (od_items od) = true
  /\ _deserialize_ordered_dict (_serialize_ordered_dict od) = Ok od.
Proof.
  intros data od. split; [reflexivity|].
  exact (ordered_dict_deserialize_wf data od eq_refl).
Defined.

(** X3. For paired keys that are hashable and pairwise different, serializing
    what [_deserialize_ordered_dict] returns gives the two lists back, each cut
    to the length of the shorter one; lists of the same length come back as
    they are. *)
Theorem ordered_dict_serialize_deserialize (ks vs : list pyobj) :
  forallb hashable (take (length vs) ks) = true ->
  keys_distinct (take (length vs) ks) = true ->
  exists od,
    _deserialize_ordered_dict (ks, vs) = Ok od
    /\ _serialize_ordered_dict od = (take (length vs) ks, take (length ks) vs)
    /\ (length ks = length vs -> _serialize_ordered_dict od = (ks, vs)).
Proof.
  intros Hh Hd. rewrite <- zip_keys in Hh, Hd.
  exists (mkOrderedDict (zip ks vs)).
  unfold _deserialize_ordered_dict, OrderedDict_new, _serialize_ordered_dict.
  simpl. rewrite (dict_update_distinct (zip ks vs) []) by done. simpl.
  rewrite zip_keys, zip_values. split; [done|]. split; [done|].
  intros Hlen. rewrite <- Hlen at 1.
  by rewrite (take_ge ks), (take_ge vs) by lia.
Qed.

Lemma ordered_dict_serialize_deserialize_abc :
  let ks := [PyStr "a"; PyStr "b"; PyStr "c"] in
  let vs := [PyInt 1; PyInt 2] in
  exists od,
    _deserialize_ordered_dict (ks, vs) = Ok od
    /\ _serialize_ordered_dict od = ([PyStr "a"; PyStr "b"], [PyInt 1; PyInt 2]).
Proof.
  intros ks vs.
  destruct (ordered_dict_serialize_deserialize ks vs eq_refl eq_refl)
    as (od & Hod & Hser & _).
  by exists od.
Defined.

(** An induction principle that reaches the items of lists and tuples. *)
Lemma pyobj_nested_ind (P : pyobj -> Prop) :
  P PyNone -> (forall b, P (PyBool b)) -> (forall n, P (PyInt n)) ->
  (forall s, P (PyStr s)) -> (forall f, P (PyFunc f)) ->
  (forall items, Forall P items -> P (PyList items)) ->
  (forall items, Forall P items -> P (PyTuple items)) ->
  forall o, P o.
Proof.
  intros HN HB HI HS HF HL HT. fix IH 1.
  intros [|b|n|s|f|items|items]; [done..| |].
  - apply HL. induction items as [|x xs IHxs]; constructor; [apply IH | apply IHxs].
  - apply HT. induction items as [|x xs IHxs]; constructor; [apply IH | apply IHxs].
Qed.

Lemma all2_sym (xs ys : list pyobj) :
  Forall (fun x => forall y, py_eq x y = py_eq y x) xs ->
  all2 py_eq xs ys = all2 py_eq ys xs.
Proof.
  intros Hxs. revert ys.
  induction Hxs as [|x xs Hx _ IH]; intros [|y ys]; simpl; try done.
  by rewrite Hx, IH.
Qed.

Lemma all2_trans (xs ys zs : list pyobj) :
  Forall (fun x => forall y z,
            py_eq x y = true -> py_eq y z = true -> py_eq x z = true) xs ->
  all2 py_eq xs ys = true -> all2 py_eq ys zs = true -> all2 py_eq xs zs = true.
Proof.
  intros Hxs. revert ys zs.
  induction Hxs as [|x xs Hx _ IH]; intros [|y ys] [|z zs]; simpl; try done.
  intros [Hxy Hxys]%andb_prop [Hyz Hyzs]%andb_prop.
  by rewrite (Hx y z), (IH ys zs).
Qed.

(** [==] is symmetric and transitive. *)
Lemma py_eq_sym (a b : pyobj) : py_eq a b = py_eq b a.
Proof.
  revert b. induction a using pyobj_nested_ind; intros [| | | | | |];
    simpl; try done.
  - by destruct b, b0.
  - apply Z.eqb_sym.
  - apply Z.eqb_sym.
  - apply Z.eqb_sym.
  - apply String.eqb_sym.
  - apply String.eqb_sym.
  - by apply all2_sym.
  - by apply all2_sym.
Qed.

Lemma py_eq_trans (a b c : pyobj) :
  py_eq a b = true -> py_eq b c = true -> py_eq a c = true.
Proof.
  revert b c.
  induction a using pyobj_nested_ind; intros [| | | | | |] [| | | | | |];
    simpl; try done; try (by apply all2_trans);
    intros Hab Hbc;
    repeat match goal with
      | H : (_ =? _) = true |- _ => apply Z.eqb_eq in H
      | H : String.eqb _ _ = true |- _ => apply String.eqb_eq in H
      | H : Bool.eqb _ _ = true |- _ => apply Bool.eqb_prop in H
      end;
    subst;
    rewrite ?Z.eqb_refl, ?String.eqb_refl, ?Bool.eqb_reflx; try done;
    repeat match goal with b : bool |- _ => destruct b end;
    try done; try lia.
Qed.

Lemma dict_store_hashable (d : items_t) (k v : pyobj) :
  hashable k = true -> forallb hashable d.*1 = true ->
  forallb hashable (dict_store d k v).*1 = true.
Proof.
  intros Hk Hd. rewrite dict_store_keys.
  destruct (forallb (fun k0 => negb (py_eq k0 k)) d.*1); [|done].
  rewrite forallb_app, Hd. simpl. by rewrite Hk.
Qed.

(** Reading after storing: the stored value under an equal key, what was
    there under any other key. *)
Lemma dict_get_store (d : items_t) (k1 v1 k : pyobj) :
  forallb hashable d.*1 = true -> hashable k1 = true -> hashable k = true ->
  dict_get (dict_store d k1 v1) k
  = if py_eq k1 k then Some v1 else dict_get d k.
Proof.
  intros Hd Hk1 Hk. induction d as [|[k0 v0] d IH]; [done|].
  rewrite fmap_cons in Hd. cbn [fst forallb] in Hd.
  apply andb_prop in Hd as [Hk0 Hd].
  cbn [dict_store dict_get].
  destruct (py_eq k0 k1) eqn:H01; cbn [dict_get].
  - destruct (py_eq k1 k) eqn:H1.
    + by rewrite (py_eq_trans k0 k1 k).
    + destruct (py_eq k0 k) eqn:H0; [|done].
      rewrite (py_eq_sym k0 k1) in H01 by done.
      by rewrite (py_eq_trans k1 k0 k) in H1.
  - rewrite IH by done.
    destruct (py_eq k0 k) eqn:H0; [|done].
    destruct (py_eq k1 k) eqn:H1; [|done].
    rewrite (py_eq_sym k1 k) in H1 by done.
    by rewrite (py_eq_trans k0 k k1) in H01.
Qed.

Lemma dict_get_app (d1 d2 : items_t) (k : pyobj) :
  dict_get (d1 ++ d2) k
  = match dict_get d1 k with
    | Some v => Some v
    | None => dict_get d2 k
    end.
Proof.
  induction d1 as [|[k0 v0] d1 IH]; [done|].
  cbn [app dict_get]. by destruct (py_eq k0 k).
Qed.

(** After an update, a key has the value of the last pair that gives it one,
    and the value it had when no pair does. *)
Lemma dict_get_update (pairs d d' : items_t) (k : pyobj) :
  forallb hashable d.*1 = true -> hashable k = true ->
  dict_update d pairs = Ok d' ->
  dict_get d' k
  = match dict_get (reverse pairs) k with
    | Some v => Some v
    | None => dict_get d k
    end.
Proof.
  revert d. induction pairs as [|[k1 v1] pairs IH]; intros d Hd Hk Hup.
  - simpl in Hup. by injection Hup as <-.
  - cbn [dict_update] in Hup. unfold dict_setitem in Hup.
    destruct (hashable k1) eqn:Hk1; [|done]. simpl in Hup.
    rewrite (IH (dict_store d k1 v1)); [|by apply dict_store_hashable|done..].
    rewrite reverse_cons, dict_get_app, dict_get_store by done.
    destruct (dict_get (reverse pairs) k); [done|].
    cbn [dict_get]. by destruct (py_eq k1 k).
Qed.

(** X4. When a key occurs more than once among the paired keys, the
    OrderedDict that [_deserialize_ordered_dict] returns gives it the value
    paired with its last occurrence: looking a hashable key up in the result is
    looking it up in the pairs read from the last one to the first. *)
Theorem ordered_dict_deserialize_last_value (ks vs : list pyobj)
    (od : OrderedDict) (k : pyobj) :
  hashable k = true ->
  _deserialize_ordered_dict (ks, vs) = Ok od ->
  dict_get (od_items od) k = dict_get (reverse (zip ks vs)) k.
Proof.
  unfold _deserialize_ordered_dict, OrderedDict_new. simpl. intros Hk Hod.
  destruct (dict_update [] (zip ks vs)) as [d|e] eqn:Hd; [|done].
  simpl in Hod. injection Hod as <-. simpl.
  rewrite (dict_get_update (zip ks vs) [] d k) by done.
  by destruct (dict_get (reverse (zip ks vs)) k).
Qed.

Lemma ordered_dict_deserialize_last_value_a :
  let ks := [PyStr "a"; PyStr "b"; PyStr "a"] in
  let vs := [PyInt 1; PyInt 2; PyInt 3] in
  let od := mkOrderedDict [(PyStr "a", PyInt 3); (PyStr "b", PyInt 2)] in
  _deserialize_ordered_dict (ks, vs) = Ok od
  /\ dict_get (od_items od) (PyStr "a") = Some (PyInt 3).
Proof.
  intros ks vs od. split; [reflexivity|].
  exact (ordered_dict_deserialize_last_value ks vs od (PyStr "a")
           eq_refl eq_refl).
Defined.

(** ** More of the defaultdict codec *)

(** X5. [_deserialize_default_dict] raises exactly when the factory it is
    given is neither callable nor [None], or one of the paired keys is
    unhashable, and what it raises then is [TypeError]; otherwise it returns
    a defaultdict that has the given factory and well-formed items. *)
Theorem default_dict_deserialize_raises (ks vs : list pyobj) (f : pyobj) :
  match _deserialize_default_dict (ks, vs, f) with
  | Ok d =>
      (callable f || is_none f) = true
      /\ forallb hashable (take (length vs) ks) = true
      /\ default_factory d = f
      /\ defaultdict_wf d = true
  | Raise e =>
      e = TypeError
      /\ ((callable f || is_none f) = false
          \/ forallb hashable (take (length vs) ks) = false)
  end.
Proof.
  unfold _deserialize_default_dict, defaultdict_new. simpl.
  rewrite <- zip_keys.
  destruct (callable f || is_none f) eqn:Hf; [|by split; [|left]].
  destruct (forallb hashable (zip ks vs).*1) eqn:Hh.
  - destruct (dict_update_hashable (zip ks vs) [] Hh) as (d & Hd & _).
    rewrite Hd. simpl. do 3 (split; [done|]).
    unfold defaultdict_wf. simpl. rewrite Hf. simpl.
    exact (dict_update_keeps_wf _ [] d eq_refl Hd).
  - rewrite dict_update_unhashable by done. simpl. by split; [|right].
Qed.

(** ** More of the int codec *)

(** What [str] prints for an integer is its decimal form. *)
Lemma str_int_Ok (py : interpreter) (n : Z) (data : string) :
  str_int py n = Ok data -> data = decimal_literal n.
Proof.
  unfold str_int. destruct (exceeds_max_str_digits _ _ _); [done|].
  by intros [= <-].
Qed.

Lemma py_int_decimal_literal_unlimited (n : Z) :
  py_int (unlimited true) (decimal_literal n) = Ok n.
Proof. apply py_int_decimal_literal, str_int_within. by left. Qed.

(** X15. The serializer of the int codec gives different strings for different
    instances of [int]: two integers, two booleans, or an integer and a
    boolean with the same serialized form are the same object. *)
Theorem int_serializer_injective (py : interpreter) (a b : pyobj) (data : string) :
  isinstance_int a = true -> isinstance_int b = true ->
  int_custom_serializer py a = Some (Ok data) ->
  int_custom_serializer py b = Some (Ok data) ->
  a = b.
Proof.
  unfold int_custom_serializer.
  destruct a as [|x|n| | | |], b as [|y|m| | | |]; try done; simpl; intros _ _.
  - intros [= <-]. by destruct x, y.
  - intros [= <-] [= Hm%str_int_Ok].
    pose proof (py_int_decimal_literal_unlimited m) as Hpy.
    rewrite <- Hm in Hpy. by destruct x.
  - intros [= Hn%str_int_Ok] [= <-].
    pose proof (py_int_decimal_literal_unlimited n) as Hpy.
    rewrite <- Hn in Hpy. by destruct y.
  - intros [= Hn%str_int_Ok] [= Hm%str_int_Ok].
    pose proof (py_int_decimal_literal_unlimited n) as Hn'.
    pose proof (py_int_decimal_literal_unlimited m) as Hm'.
    rewrite <- Hn in Hn'. rewrite <- Hm in Hm'. congruence.
Qed.

Lemma int_serializer_injective_42 :
  int_custom_serializer cpython_3_11 (PyInt 42) = Some (Ok "42")
  /\ PyInt 42 = PyInt (40 + 2).
Proof.
  split; [reflexivity|].
  exact (int_serializer_injective cpython_3_11 (PyInt 42) (PyInt (40 + 2)) "42"
           eq_refl eq_refl eq_refl eq_refl).
Defined.

(** ** More of the numpy list codec *)

Lemma common_prefix_l (s1 s2 : list nat) : common_prefix s1 s2 `prefix_of` s1.
Proof.
  revert s2. induction s1 as [|m s1 IH]; intros [|n s2]; simpl;
    try apply prefix_nil.
  destruct (m =? n)%nat; [|apply prefix_nil]. by apply prefix_cons.
Qed.

Lemma common_prefix_r (s1 s2 : list nat) : common_prefix s1 s2 `prefix_of` s2.
Proof.
  revert s2. induction s1 as [|m s1 IH]; intros [|n s2]; simpl;
    try apply prefix_nil.
  destruct (m =? n)%nat eqn:Hmn; [|apply prefix_nil].
  apply Nat.eqb_eq in Hmn as ->. by apply prefix_cons.
Qed.

Lemma foldl_common_prefix (s : list nat) (rest : list (list nat)) :
  foldl common_prefix s rest `prefix_of` s
  /\ Forall (fun x => foldl common_prefix s rest `prefix_of` x) rest.
Proof.
  revert s. induction rest as [|x rest IH]; intros s; simpl.
  - by split.
  - destruct (IH (common_prefix s x)) as [Hs Hrest]. split.
    + etrans; [done|]. apply common_prefix_l.
    + constructor; [|done]. etrans; [done|]. apply common_prefix_r.
Qed.

(** The common shape is a prefix of each of the shapes. *)
Lemma common_shape_prefix (shapes : list (list nat)) :
  Forall (fun x => common_shape shapes `prefix_of` x) shapes.
Proof.
  destruct shapes as [|s rest]; [done|]. simpl.
  destruct (foldl_common_prefix s rest) as [Hs Hrest]. by constructor.
Qed.

(** A sequence nested as a shape says is nested as any prefix of the shape
    says. *)
Lemma conforms_prefix (dims dims' : list nat) (obj : pyobj) :
  dims `prefix_of` dims' -> conforms dims' obj -> conforms dims obj.
Proof.
  intros [q ->]. revert obj. induction dims as [|n dims IH]; intros obj; [done|].
  simpl. destruct (sequence_items obj); [|done]. intros [Hlen Hitems]. split; [done|].
  eapply Forall_impl; [done|]. intros item. apply IH.
Qed.

(** The shape found for an object is one the object is nested as, and has at
    most [maxdims] dimensions. *)
Lemma discover_shape_conforms (maxdims : nat) (obj : pyobj) :
  conforms (discover_shape maxdims obj) obj.
Proof.
  revert obj. induction maxdims as [|m IH]; intros obj; [done|].
  cbn [discover_shape]. destruct (sequence_items obj) as [items|] eqn:Hitems; [|done].
  cbn [conforms]. rewrite Hitems. split; [done|].
  pose proof (common_shape_prefix (discover_shape m <$> items)) as Hpre.
  rewrite Forall_fmap in Hpre.
  eapply Forall_impl; [exact Hpre|].
  intros item Hitem. simpl in Hitem.
  by eapply conforms_prefix.
Qed.

Lemma discover_shape_length (maxdims : nat) (obj : pyobj) :
  (length (discover_shape maxdims obj) <= maxdims)%nat.
Proof.
  revert obj. induction maxdims as [|m IH]; intros obj; [done|].
  cbn [discover_shape]. destruct (sequence_items obj) as [items|]; cbn [length]; [|lia].
  destruct items as [|item items]; [simpl; lia|].
  rewrite fmap_cons. cbn [common_shape].
  destruct (foldl_common_prefix (discover_shape m item)
              (discover_shape m <$> items)) as [Hpre _].
  apply prefix_length in Hpre. specialize (IH item). lia.
Qed.

Lemma concat_length_const {A : Type} (k : nat) (ls : list (list A)) :
  Forall (fun l => length l = k) ls -> length (concat ls) = (length ls * k)%nat.
Proof.
  induction 1 as [|l ls Hl _ IH]; [done|].
  simpl. rewrite length_app, Hl, IH. lia.
Qed.

Lemma chunks_of_concat {A : Type} (k : nat) (ls : list (list A)) :
  Forall (fun l => length l = k) ls -> chunks (length ls) k (concat ls) = ls.
Proof.
  induction 1 as [|l ls Hl _ IH]; [done|].
  simpl. rewrite take_app_length' by done.
  by rewrite drop_app_length', IH.
Qed.

(** A sequence nested as [dims] says holds [product dims] elements. *)
Lemma flatten_length (dims : list nat) (obj : pyobj) :
  conforms dims obj -> length (flatten (length dims) obj) = product dims.
Proof.
  revert obj. induction dims as [|n rest IH]; intros obj; [done|].
  simpl. destruct (sequence_items obj) as [items|]; [|done]. intros [Hlen Hitems].
  rewrite (concat_length_const (product rest)).
  - by rewrite length_fmap, Hlen.
  - rewrite Forall_fmap. eapply Forall_impl; [done|]. intros item. apply IH.
Qed.

(** Nesting the elements of a nested sequence again gives the nested sequence,
    with lists where it has tuples. *)
Lemma tolist_flatten (dims : list nat) (obj : pyobj) :
  conforms dims obj ->
  tolist_rec dims (flatten (length dims) obj) = as_lists (length dims) obj.
Proof.
  revert obj. induction dims as [|n rest IH]; intros obj; [done|].
  cbn [conforms length flatten tolist_rec as_lists].
  destruct (sequence_items obj) as [items|]; [|done]. intros [Hlen Hitems].
  f_equal.
  assert (Forall (fun l => length l = product rest) (flatten (length rest) <$> items))
    as Hk.
  { rewrite Forall_fmap. eapply Forall_impl; [done|].
    intros item. apply flatten_length. }
  rewrite <- Hlen, <- (length_fmap (flatten (length rest)) items).
  rewrite chunks_of_concat by done.
  rewrite <- list_fmap_compose.
  apply Forall_fmap_ext_1. eapply Forall_impl; [done|].
  intros item. apply IH.
Qed.

(** Whether a level is a list or a tuple makes no difference to the shape
    found, nor to the elements. *)
Lemma discover_shape_as_lists (maxdims depth : nat) (obj : pyobj) :
  discover_shape maxdims (as_lists depth obj) = discover_shape maxdims obj.
Proof.
  revert depth obj. induction maxdims as [|m IH]; intros depth obj; [done|].
  destruct depth as [|d]; [done|]. cbn [as_lists discover_shape].
  destruct (sequence_items obj) as [items|] eqn:Hitems; [|by rewrite Hitems].
  cbn [sequence_items]. rewrite length_fmap, <- list_fmap_compose.
  do 2 f_equal. apply list_fmap_ext. intros i item _. apply IH.
Qed.

Lemma flatten_as_lists (k depth : nat) (obj : pyobj) :
  (depth <= k)%nat ->
  flatten k (as_lists depth obj) = flatten k obj.
Proof.
  revert depth obj. induction k as [|k IH]; intros depth obj Hk.
  - by destruct depth; [|lia].
  - destruct depth as [|d]; [done|]. cbn [as_lists flatten].
    destruct (sequence_items obj) as [items|] eqn:Hitems; [|by rewrite Hitems].
    cbn [sequence_items]. rewrite <- list_fmap_compose.
    f_equal. apply list_fmap_ext. intros i item _. apply IH. lia.
Qed.

(** Nothing changes where there is no tuple. *)
Lemma as_lists_lists_only (depth : nat) (obj : pyobj) :
  lists_only depth obj = true -> as_lists depth obj = obj.
Proof.
  revert obj. induction depth as [|d IH]; intros obj; [done|].
  destruct obj as [| | | | |items|items]; try done. cbn [lists_only as_lists sequence_items].
  intros Hitems. f_equal. rewrite <- (list_fmap_id items) at 2.
  apply Forall_fmap_ext_1. apply Is_true_true_2, forallb_True in Hitems.
  eapply Forall_impl; [done|]. intros item Hitem. apply IH. by apply Is_true_true_1.
Qed.

(** What [np.array] builds from an object, for the object dtype. *)
Lemma np_array_object (obj : pyobj) :
  np_array obj dtype_object
  = Some (mkndarray dtype_object (discover_shape NPY_MAXDIMS obj)
            (flatten (length (discover_shape NPY_MAXDIMS obj)) obj)).
Proof.
  unfold np_array. change (dtype_kind dtype_object) with (Some kind_object).
  cbn [mbind option_bind].
  rewrite mapM_setitem_scalars; [done|]. by apply Forall_true.
Qed.

Lemma tolist_np_array (obj : pyobj) (a : ndarray) :
  np_array obj dtype_object = Some a ->
  tolist a = as_lists (length (shape a)) obj
  /\ dtype a = dtype_object
  /\ shape a = discover_shape NPY_MAXDIMS obj.
Proof.
  rewrite np_array_object. intros Ha. apply (inj Some) in Ha. subst a.
  split; [|done]. unfold tolist. cbn [shape data].
  apply tolist_flatten. apply discover_shape_conforms.
Qed.

(** X6. Whatever nested list it is given, with the type string of the object
    dtype, [_deserialize_numpy_array_list] returns an array of that dtype
    that holds as many elements as its shape says and has at most
    [NPY_MAXDIMS] dimensions. *)
Theorem numpy_list_deserialize_wf (obj : pyobj) :
  exists a,
    _deserialize_numpy_array_list (obj, dtype_object) = Some a
    /\ dtype a = dtype_object
    /\ ndarray_wf a.
Proof.
  unfold _deserialize_numpy_array_list, np_dtype. cbn [fst snd].
  rewrite np_array_object. eexists. split; [done|]. split; [done|].
  split; [|split]; cbn [data shape dtype].
  - apply flatten_length, discover_shape_conforms.
  - apply discover_shape_length.
  - by apply Forall_true.
Qed.

(** X7. Deserializing and serializing again gives the data back with lists
    in the place of the tuples that [np.array] opened: the nested list of the
    array that [_deserialize_numpy_array_list] builds from [obj] is [obj] with
    the sequences of its first [ndim] levels as lists, and its type string the
    one given.  Data nested with lists only comes back as it is. *)
Theorem numpy_list_serialize_deserialize (obj : pyobj) :
  exists a,
    _deserialize_numpy_array_list (obj, dtype_object) = Some a
    /\ _serialize_numpy_array_list a
       = (as_lists (length (shape a)) obj, dtype_object)
    /\ (lists_only (length (shape a)) obj = true ->
        _serialize_numpy_array_list a = (obj, dtype_object)).
Proof.
  unfold _deserialize_numpy_array_list, np_dtype. cbn [fst snd].
  destruct (np_array obj dtype_object) as [a|] eqn:Ha;
    [|by rewrite np_array_object in Ha].
  exists a. split; [done|].
  destruct (tolist_np_array obj a Ha) as (Hl & Hdt & _).
  unfold _serialize_numpy_array_list. rewrite Hl, Hdt. split; [done|].
  intros Hlists. by rewrite as_lists_lists_only.
Qed.

(** A list of two tuples comes back as a list of two lists, and that one as
    it is. *)
Lemma numpy_list_serialize_deserialize_tuples :
  let obj := PyList [PyTuple [PyInt 1; PyInt 2]; PyTuple [PyInt 3; PyInt 4]] in
  let obj' := PyList [PyList [PyInt 1; PyInt 2]; PyList [PyInt 3; PyInt 4]] in
  exists a a',
    _deserialize_numpy_array_list (obj, dtype_object) = Some a
    /\ _serialize_numpy_array_list a = (obj', dtype_object)
    /\ _deserialize_numpy_array_list (obj', dtype_object) = Some a'
    /\ _serialize_numpy_array_list a' = (obj', dtype_object).
Proof.
  intros obj obj'.
  destruct (numpy_list_serialize_deserialize obj) as (a & Ha & Hser & _).
  destruct (numpy_list_serialize_deserialize obj') as (a' & Ha' & _ & Hser').
  exists a, a'. split; [done|]. split.
  - rewrite Hser. by injection Ha as <-.
  - split; [done|]. apply Hser'. by injection Ha' as <-.
Defined.

(** X8. What the list codec loses it loses once: the array that comes back
    from one round trip comes back unchanged from the next one. *)
Theorem numpy_list_codec_roundtrip_stable (a a' : ndarray) :
  dtype a = dtype_object ->
  _deserialize_numpy_array_list (_serialize_numpy_array_list a) = Some a' ->
  _deserialize_numpy_array_list (_serialize_numpy_array_list a') = Some a'.
Proof.
  unfold _deserialize_numpy_array_list, _serialize_numpy_array_list, np_dtype.
  cbn [fst snd]. intros -> Ha'.
  destruct (tolist_np_array _ a' Ha') as (Hl & Hdt & Hshape).
  rewrite Hl, Hdt, np_array_object.
  rewrite discover_shape_as_lists, flatten_as_lists.
  - rewrite np_array_object in Ha'. by rewrite <- Ha'.
  - rewrite Hshape. lia.
Qed.

(** The array of shape [(2,)] that holds two lists comes back as an array of
    shape [(2, 2)], and that array comes back as it is. *)
Lemma numpy_list_codec_roundtrip_stable_2 :
  let a := mkndarray dtype_object [2%nat]
             [PyList [PyInt 1; PyInt 2]; PyList [PyInt 3; PyInt 4]] in
  let a' := mkndarray dtype_object [2%nat; 2%nat]
              [PyInt 1; PyInt 2; PyInt 3; PyInt 4] in
  _deserialize_numpy_array_list (_serialize_numpy_array_list a) = Some a'
  /\ _deserialize_numpy_array_list (_serialize_numpy_array_list a') = Some a'.
Proof.
  intros a a'. split; [reflexivity|].
  exact (numpy_list_codec_roundtrip_stable a a' eq_refl eq_refl).
Defined.

(** ** Tables of registrations *)

Lemma register_entry_registry (e : Entry) (c : Ctx) (ty : pytype) :
  registry (register_entry e c) !! ty
  = if decide (entry_type e = ty) then Some e else registry c !! ty.
Proof.
  unfold register_entry, ctx_register. cbn [registry].
  rewrite lookup_insert. destruct e. by case_decide.
Qed.

Lemma register_entry_tags (e : Entry) (c : Ctx) (tag : string) :
  tags (register_entry e c) !! tag
  = if decide (entry_tag e = tag) then Some e else tags c !! tag.
Proof.
  unfold register_entry, ctx_register. cbn [tags].
  rewrite lookup_insert. destruct e. by case_decide.
Qed.

(** After a table is registered, a type is bound to the last entry the table
    has for it, and to what it was bound to when the table has none; a tag
    likewise. *)
Lemma register_entries_registry (es : list Entry) (c : Ctx) (ty : pytype) :
  registry (register_entries es c) !! ty
  = match bound_type es ty with
    | Some e => Some e
    | None => registry c !! ty
    end.
Proof.
  revert c. induction es as [|e es IH]; intros c; [done|].
  cbn [register_entries foldl bound_type].
  change (foldl (fun c e => register_entry e c) (register_entry e c) es)
    with (register_entries es (register_entry e c)).
  rewrite IH, register_entry_registry.
  destruct (bound_type es ty); [done|]. by case_decide.
Qed.

Lemma register_entries_tags (es : list Entry) (c : Ctx) (tag : string) :
  tags (register_entries es c) !! tag
  = match bound_tag es tag with
    | Some e => Some e
    | None => tags c !! tag
    end.
Proof.
  revert c. induction es as [|e es IH]; intros c; [done|].
  cbn [register_entries foldl bound_tag].
  change (foldl (fun c e => register_entry e c) (register_entry e c) es)
    with (register_entries es (register_entry e c)).
  rewrite IH, register_entry_tags.
  destruct (bound_tag es tag); [done|]. by case_decide.
Qed.

Lemma context_eq (c1 c2 : Ctx) :
  (forall ty, registry c1 !! ty = registry c2 !! ty) ->
  (forall tag, tags c1 !! tag = tags c2 !! tag) ->
  c1 = c2.
Proof.
  destruct c1 as [r1 t1], c2 as [r2 t2]. simpl. intros Hr Ht.
  f_equal; by apply map_eq.
Qed.

Lemma register_entries_app (es1 es2 : list Entry) (c : Ctx) :
  register_entries (es1 ++ es2) c = register_entries es2 (register_entries es1 c).
Proof. unfold register_entries. by rewrite foldl_app. Qed.

Lemma updates_ext (l : loc) (f g : Ctx -> Ctx) (m : Run unit) :
  (forall c, f c = g c) -> updates l f m -> updates l g m.
Proof.
  intros Hfg Hm h. rewrite Hm. f_equal. apply alter_ext. intros c _. apply Hfg.
Qed.

(** Each function of the script registers its table, in order, in the context
    it is given. *)
Lemma register_default_table (env : environment) (l : loc) :
  updates l (register_entries (default_entries env))
    (register_default_serialization_handlers env l).
Proof.
  eapply updates_ext;
    [|unfold register_default_serialization_handlers; solve_updates].
  intros c. by destruct env as [[] [] [] []].
Qed.

Lemma pandas_arrow_table (env : environment) (l : loc) :
  updates l (register_entries (pandas_arrow_entries env))
    (_register_pandas_arrow_handlers env l).
Proof.
  eapply updates_ext; [|unfold _register_pandas_arrow_handlers; solve_updates].
  intros c. by destruct env as [[] [] [] []].
Qed.

Lemma custom_pandas_table (env : environment) (l : loc) :
  updates l (register_entries (custom_pandas_entries env))
    (_register_custom_pandas_handlers env l).
Proof.
  eapply updates_ext; [|unfold _register_custom_pandas_handlers; solve_updates].
  intros c. by destruct env as [[] [] [] []].
Qed.

Lemma bound_type_elem (es : list Entry) (e : Entry) :
  NoDup (entry_type <$> es) -> e ∈ es -> bound_type es (entry_type e) = Some e.
Proof.
  induction es as [|e0 es IH]; [by intros _ ?%elem_of_nil|].
  rewrite fmap_cons, NoDup_cons. intros [Hnew Hnodup] Hin.
  cbn [bound_type]. apply elem_of_cons in Hin as [->|Hin].
  - destruct (bound_type es (entry_type e0)) as [e'|] eqn:He'.
    + exfalso. apply Hnew. clear -He'.
      induction es as [|e1 es IH]; [done|]. cbn [bound_type] in He'.
      rewrite fmap_cons. destruct (bound_type es (entry_type e0)).
      * right. by apply IH.
      * case_decide as Heq; [|done]. rewrite <- Heq. left.
    + by rewrite decide_True.
  - by rewrite IH.
Qed.

Lemma bound_tag_elem (es : list Entry) (e : Entry) :
  NoDup (entry_tag <$> es) -> e ∈ es -> bound_tag es (entry_tag e) = Some e.
Proof.
  induction es as [|e0 es IH]; [by intros _ ?%elem_of_nil|].
  rewrite fmap_cons, NoDup_cons. intros [Hnew Hnodup] Hin.
  cbn [bound_tag]. apply elem_of_cons in Hin as [->|Hin].
  - destruct (bound_tag es (entry_tag e0)) as [e'|] eqn:He'.
    + exfalso. apply Hnew. clear -He'.
      induction es as [|e1 es IH]; [done|]. cbn [bound_tag] in He'.
      rewrite fmap_cons. destruct (bound_tag es (entry_tag e0)).
      * right. by apply IH.
      * case_decide as Heq; [|done]. rewrite <- Heq. left.
    + by rewrite decide_True.
  - by rewrite IH.
Qed.

Lemma bound_type_None (es : list Entry) (ty : pytype) :
  ty ∉ entry_type <$> es <-> bound_type es ty = None.
Proof.
  induction es as [|e es IH]; [by split; [|intros _ ?%elem_of_nil]|].
  rewrite fmap_cons, not_elem_of_cons, IH. cbn [bound_type].
  destruct (bound_type es ty); [by split; [intros [_ ?]|]|].
  case_decide; (split; [intros [? _]; congruence | intros ?; split; congruence]).
Qed.

Lemma bound_tag_None (es : list Entry) (tag : string) :
  tag ∉ entry_tag <$> es <-> bound_tag es tag = None.
Proof.
  induction es as [|e es IH]; [by split; [|intros _ ?%elem_of_nil]|].
  rewrite fmap_cons, not_elem_of_cons, IH. cbn [bound_tag].
  destruct (bound_tag es tag); [by split; [intros [_ ?]|]|].
  case_decide; (split; [intros [? _]; congruence | intros ?; split; congruence]).
Qed.

(** No two registrations of a function of the script have the same type or
    the same tag. *)
Lemma default_entries_NoDup (env : environment) :
  NoDup (entry_type <$> default_entries env)
  /\ NoDup (entry_tag <$> default_entries env).
Proof. destruct env as [[] [] [] []]; split; by apply (bool_decide_unpack _). Qed.

(** ** The functions of the script *)

(** X9. In the context it is given, [register_default_serialization_handlers]
    binds each type and each tag of its registrations to the entry of that
    registration (none is shadowed by a later one), leaves every other type
    and every other tag as it was, and leaves the other contexts alone. *)
Theorem register_default_effect (env : environment) (l : loc) (h : Store) (c : Ctx) :
  h !! l = Some c ->
  exists c',
    (register_default_serialization_handlers env l h).2 !! l = Some c'
    /\ (forall e, e ∈ default_entries env ->
          registry c' !! entry_type e = Some e
          /\ tags c' !! entry_tag e = Some e)
    /\ (forall ty, ty ∉ entry_type <$> default_entries env ->
          registry c' !! ty = registry c !! ty)
    /\ (forall tag, tag ∉ entry_tag <$> default_entries env ->
          tags c' !! tag = tags c !! tag)
    /\ (forall l', l <> l' ->
          (register_default_serialization_handlers env l h).2 !! l' = h !! l').
Proof.
  intros Hl. pose proof (register_default_table env l) as Hup.
  destruct (default_entries_NoDup env) as [Hty Htag].
  exists (register_entries (default_entries env) c).
  split; [by rewrite (updates_lookup _ _ _ _ Hup), Hl|].
  split; [|split; [|split]].
  - intros e He. rewrite register_entries_registry, register_entries_tags.
    by rewrite bound_type_elem, bound_tag_elem.
  - intros ty Hnot. rewrite register_entries_registry.
    by apply bound_type_None in Hnot as ->.
  - intros tag Hnot. rewrite register_entries_tags.
    by apply bound_tag_None in Hnot as ->.
  - intros l' Hne. by apply (updates_lookup_ne _ _ _ _ _ Hup).
Qed.

(** In a fresh context the default handlers are exactly the registered
    types: [int] is bound, [pd.Series] is not. *)
Lemma register_default_effect_empty :
  let env := mkEnv false true false true in
  exists c',
    (register_default_serialization_handlers env 0%nat initial_store).2 !! 0%nat
    = Some c'
    /\ registry c' !! ty_int
       = Some (mkEntry ty_int "int"
                 fn_int_custom_serializer fn_int_custom_deserializer)
    /\ registry c' !! pd_Series = None.
Proof.
  intros env.
  destruct (register_default_effect env 0%nat initial_store empty_context eq_refl)
    as (c' & Hc' & Hin & Hout & _).
  exists c'. split; [done|]. split.
  - apply (Hin (mkEntry ty_int "int"
                  fn_int_custom_serializer fn_int_custom_deserializer)).
    apply list_elem_of_here.
  - rewrite Hout; [done|]. by apply (bool_decide_unpack _).
Defined.

(** Registering a table twice is registering it once. *)
Lemma register_entries_idem (es : list Entry) (c : Ctx) :
  register_entries es (register_entries es c) = register_entries es c.
Proof.
  apply context_eq.
  - intros ty. rewrite !register_entries_registry.
    by destruct (bound_type es ty).
  - intros tag. rewrite !register_entries_tags.
    by destruct (bound_tag es tag).
Qed.

Lemma updates_twice (l : loc) (f : Ctx -> Ctx) (m : Run unit) (h : Store) :
  updates l f m -> (forall c, f (f c) = f c) -> (m ;; m) h = m h.
Proof.
  intros Hm Hf.
  rewrite (updates_seq l f f m m Hm Hm h), (Hm h).
  f_equal. apply alter_ext. intros c _. apply Hf.
Qed.

(** X10. Each of the three registration functions can be called again on the
    same context without changing anything: calling it twice leaves the store
    as calling it once does. *)
Theorem registration_idempotent (env : environment) (l : loc) (h : Store) :
  (register_default_serialization_handlers env l ;;
   register_default_serialization_handlers env l) h
  = register_default_serialization_handlers env l h
  /\ (_register_pandas_arrow_handlers env l ;;
      _register_pandas_arrow_handlers env l) h
     = _register_pandas_arrow_handlers env l h
  /\ (_register_custom_pandas_handlers env l ;;
      _register_custom_pandas_handlers env l) h
     = _register_custom_pandas_handlers env l h.
Proof.
  split; [|split].
  - apply (updates_twice l _ _ h (register_default_table env l)).
    intros c. apply register_entries_idem.
  - apply (updates_twice l _ _ h (pandas_arrow_table env l)).
    intros c. apply register_entries_idem.
  - apply (updates_twice l _ _ h (custom_pandas_table env l)).
    intros c. apply register_entries_idem.
Qed.

(** A table registered after another one hides it altogether when it binds
    every type and every tag the other one binds. *)
Lemma register_entries_shadow (es1 es2 : list Entry) (c : Ctx) :
  (forall ty, bound_type es2 ty = None -> bound_type es1 ty = None) ->
  (forall tag, bound_tag es2 tag = None -> bound_tag es1 tag = None) ->
  register_entries es2 (register_entries es1 c) = register_entries es2 c.
Proof.
  intros Hty Htag. apply context_eq.
  - intros ty. rewrite !register_entries_registry.
    destruct (bound_type es2 ty) eqn:H2; [done|]. by rewrite Hty.
  - intros tag. rewrite !register_entries_tags.
    destruct (bound_tag es2 tag) eqn:H2; [done|]. by rewrite Htag.
Qed.

Lemma subseteq_bound_type (es1 es2 : list Entry) (ty : pytype) :
  entry_type <$> es1 ⊆ entry_type <$> es2 ->
  bound_type es2 ty = None -> bound_type es1 ty = None.
Proof.
  intros Hsub. rewrite <- !bound_type_None. intros Hnot Hin.
  by apply Hnot, Hsub.
Qed.

Lemma subseteq_bound_tag (es1 es2 : list Entry) (tag : string) :
  entry_tag <$> es1 ⊆ entry_tag <$> es2 ->
  bound_tag es2 tag = None -> bound_tag es1 tag = None.
Proof.
  intros Hsub. rewrite <- !bound_tag_None. intros Hnot Hin.
  by apply Hnot, Hsub.
Qed.

Lemma arrow_types_custom (env : environment) :
  entry_type <$> pandas_arrow_entries env
    ⊆ entry_type <$> custom_pandas_entries env
  /\ entry_tag <$> pandas_arrow_entries env
       ⊆ entry_tag <$> custom_pandas_entries env.
Proof.
  unfold pandas_arrow_entries, custom_pandas_entries.
  destruct (has_pandas env); [|done].
  split; intros x; csimpl; rewrite !elem_of_cons; tauto.
Qed.

(** X11. On one context, [_register_custom_pandas_handlers] called after
    [_register_pandas_arrow_handlers] hides it altogether: the store is the
    one the custom handlers alone give. *)
Theorem custom_pandas_handlers_shadow_arrow (env : environment) (l : loc)
    (h : Store) :
  (_register_pandas_arrow_handlers env l ;;
   _register_custom_pandas_handlers env l) h
  = _register_custom_pandas_handlers env l h.
Proof.
  pose proof (pandas_arrow_table env l) as Harrow.
  pose proof (custom_pandas_table env l) as Hcustom.
  destruct (arrow_types_custom env) as [Hty Htag].
  rewrite (updates_seq l _ _ _ _ Harrow Hcustom h), (Hcustom h).
  f_equal. apply alter_ext. intros c _. simpl.
  apply register_entries_shadow.
  - intros ty. by apply subseteq_bound_type.
  - intros tag. by apply subseteq_bound_tag.
Qed.

Lemma clone_run (l : loc) (c : Ctx) (h : Store) :
  h !! l = Some c -> clone l h = (fresh (dom h), <[fresh (dom h) := c]> h).
Proof. intros Hl. unfold clone. by rewrite Hl. Qed.

(** The store the module leaves: the default context with the default and the
    arrow tables registered, a new context with the default and the custom
    tables registered and [np.ndarray] bound to the pickle functions, and the
    other contexts as they were. *)
Lemma module_body_result (env : environment) (dflt : loc) (h0 : Store) (c0 : Ctx) :
  h0 !! dflt = Some c0 ->
  exists pandas hf,
    module_body env dflt h0 = (pandas, hf)
    /\ (pandas ∉ dom h0)
    /\ dom hf = {[pandas]} ∪ dom h0
    /\ hf !! dflt
       = Some (register_entries (pandas_arrow_entries env)
                 (register_entries (default_entries env) c0))
    /\ hf !! pandas
       = Some (register_entry ndarray_pickle_entry
                 (register_entries (custom_pandas_entries env)
                    (register_entries (default_entries env) c0)))
    /\ (forall l, l <> dflt -> l <> pandas -> hf !! l = h0 !! l).
Proof.
  intros H0.
  destruct (module_body_steps env dflt h0 c0 H0) as (Hrun & Hne & _ & _).
  pose proof (register_default_table env dflt) as Hf1.
  pose proof (pandas_arrow_table env dflt) as Hf3.
  set (h1 := (register_default_serialization_handlers env dflt h0).2) in *.
  assert (h1 !! dflt = Some (register_entries (default_entries env) c0)) as H1.
  { unfold h1. by rewrite (updates_lookup _ _ _ _ Hf1), H0. }
  assert (dom h1 = dom h0) as Hdom1 by apply (updates_dom _ _ _ _ Hf1).
  assert (forall l, l <> dflt -> h1 !! l = h0 !! l) as Hframe1.
  { intros l Hl. apply (updates_lookup_ne _ _ _ _ _ Hf1). by intros ->. }
  rewrite (clone_run dflt _ h1 H1) in Hrun, Hne. cbn [fst snd] in Hrun, Hne.
  set (pandas := fresh (dom h1)) in *.
  pose proof (custom_pandas_table env pandas) as Hf4.
  pose proof (numpy_pickle_updates pandas) as Hf5.
  assert (pandas ∉ dom h0) as Hfresh.
  { rewrite <- Hdom1. apply is_fresh. }
  exists pandas. eexists. split; [exact Hrun|]. split; [done|].
  unfold updates in Hf3, Hf4, Hf5. rewrite Hf3. cbn [snd].
  rewrite Hf4. cbn [snd]. rewrite Hf5. cbn [snd].
  split; [|split; [|split]].
  - rewrite !dom_alter_L, dom_insert_L. by rewrite Hdom1.
  - rewrite !lookup_alter_ne by done. rewrite lookup_alter_eq.
    rewrite lookup_insert_ne by done. by rewrite H1.
  - rewrite !lookup_alter_eq, lookup_alter_ne by done.
    by rewrite lookup_insert_eq.
  - intros l Hl Hlp. rewrite !lookup_alter_ne by done.
    rewrite lookup_insert_ne by done. by apply Hframe1.
Qed.

(** ** The two contexts of the module *)

Lemma custom_types (env : environment) :
  entry_type <$> custom_pandas_entries env ⊆ [pd_Series; pd_Index; pd_DataFrame]
  /\ entry_tag <$> custom_pandas_entries env
       ⊆ ["pd.Series"; "pd.Index"; "pd.DataFrame"].
Proof.
  unfold custom_pandas_entries. destruct (has_pandas env).
  - by split.
  - split; intros x Hx; by apply elem_of_nil in Hx.
Qed.

(** X12. Once the module is imported, [pandas_serialization_context] and the
    default context bind every type other than [np.ndarray], [pd.Series],
    [pd.Index] and [pd.DataFrame] to the same entry, and every tag other than
    the four tags of these types; when pandas cannot be imported, the pandas
    context is the default context with [np.ndarray] registered again with the
    pickle functions, and nothing else. *)
Theorem pandas_context_differences (env : environment) (dflt : loc)
    (h0 : Store) (c0 : Ctx) :
  h0 !! dflt = Some c0 ->
  exists pandas hf cd cp,
    module_body env dflt h0 = (pandas, hf)
    /\ hf !! dflt = Some cd
    /\ hf !! pandas = Some cp
    /\ (forall ty, ty ∉ [np_ndarray; pd_Series; pd_Index; pd_DataFrame] ->
          registry cp !! ty = registry cd !! ty)
    /\ (forall tag, tag ∉ ["np.array"; "pd.Series"; "pd.Index"; "pd.DataFrame"] ->
          tags cp !! tag = tags cd !! tag)
    /\ (has_pandas env = false ->
          cp = ctx_register np_ndarray "np.array"
                 _serialize_numpy_array_pickle _deserialize_numpy_array_pickle
                 cd).
Proof.
  intros H0.
  destruct (module_body_result env dflt h0 c0 H0)
    as (pandas & hf & Hrun & _ & _ & Hd & Hp & _).
  destruct (arrow_types_custom env) as [Haty Hatag].
  destruct (custom_types env) as [Hcty Hctag].
  exists pandas, hf. eexists. eexists.
  split; [done|]. split; [exact Hd|]. split; [exact Hp|].
  split; [|split].
  - intros ty Hty. apply not_elem_of_cons in Hty as [Hnd Hty].
    rewrite register_entry_registry, decide_False by done.
    rewrite !register_entries_registry.
    assert (bound_type (custom_pandas_entries env) ty = None) as ->.
    { apply bound_type_None. intros Hin. by apply Hty, Hcty. }
    assert (bound_type (pandas_arrow_entries env) ty = None) as ->; [|done].
    apply bound_type_None. intros Hin. by apply Hty, Hcty, Haty.
  - intros tag Htag. apply not_elem_of_cons in Htag as [Hnd Htag].
    rewrite register_entry_tags, decide_False by done.
    rewrite !register_entries_tags.
    assert (bound_tag (custom_pandas_entries env) tag = None) as ->.
    { apply bound_tag_None. intros Hin. by apply Htag, Hctag. }
    assert (bound_tag (pandas_arrow_entries env) tag = None) as ->; [|done].
    apply bound_tag_None. intros Hin. by apply Htag, Hctag, Hatag.
  - intros Hno. unfold pandas_arrow_entries, custom_pandas_entries.
    by rewrite Hno.
Qed.

Lemma pandas_context_differences_first_import :
  let env := mkEnv false true true true in
  registry (imported_pandas_context env) !! ty_int
  = registry (imported_default_context env) !! ty_int
  /\ tags (imported_pandas_context env) !! "torch.HalfTensor"
     = tags (imported_default_context env) !! "torch.HalfTensor".
Proof.
  intros env.
  destruct (pandas_context_differences env 0%nat initial_store empty_context
              eq_refl)
    as (pandas & hf & cd & cp & Hrun & Hd & Hp & Hty & Htag & _).
  unfold imported_pandas_context, imported_default_context, imported, context_at.
  rewrite Hrun. cbn [fst snd]. rewrite Hd, Hp. cbn [default].
  split.
  - apply Hty. by apply (bool_decide_unpack _).
  - apply Htag. by apply (bool_decide_unpack _).
Defined.

(** X13. Importing the module creates one context, at an address that was not
    in use, and changes no context but that one and the default one. *)
Theorem module_body_frame (env : environment) (dflt : loc) (h0 : Store)
    (c0 : Ctx) :
  h0 !! dflt = Some c0 ->
  exists pandas hf,
    module_body env dflt h0 = (pandas, hf)
    /\ (pandas ∉ dom h0)
    /\ dom hf = {[pandas]} ∪ dom h0
    /\ (forall l, l <> dflt -> l <> pandas -> hf !! l = h0 !! l).
Proof.
  intros H0.
  destruct (module_body_result env dflt h0 c0 H0)
    as (pandas & hf & Hrun & Hfresh & Hdom & _ & _ & Hframe).
  by exists pandas, hf.
Qed.

(** A store with the default context at address 0 and another context at
    address 1: the clone goes to address 2 and the context at 1 stays. *)
Lemma module_body_frame_other :
  let env := mkEnv false true false true in
  let other := ctx_register ty_object "object" fn_pickle_dumps fn_pickle_loads
                 empty_context in
  let h0 : Store := <[1%nat := other]> initial_store in
  exists hf,
    module_body env 0%nat h0 = (2%nat, hf)
    /\ hf !! 1%nat = Some other.
Proof.
  intros env other h0.
  destruct (module_body_frame env 0%nat h0 empty_context eq_refl)
    as (pandas & hf & Hrun & _ & _ & Hframe).
  assert (pandas = 2%nat) as ->.
  { change pandas with (pandas, hf).1. rewrite <- Hrun. by vm_compute. }
  exists hf. split; [done|]. by rewrite Hframe.
Defined.

(** ** The two indexes of a context *)

Lemma coherent_empty : coherent empty_context.
Proof.
  split; intros k e He; unfold empty_context in He; simpl in He;
    by rewrite lookup_empty in He.
Qed.

(** Registering a type and a tag that are both new keeps a context coherent. *)
Lemma coherent_register_new (e : Entry) (c : Ctx) :
  coherent c ->
  registry c !! entry_type e = None -> tags c !! entry_tag e = None ->
  coherent (register_entry e c).
Proof.
  intros [Hreg Htags] Hty Htag. split.
  - intros ty e'. rewrite register_entry_registry. case_decide as Heq.
    + intros [= <-]. split; [done|].
      by rewrite register_entry_tags, decide_True.
    + intros He'. destruct (Hreg ty e' He') as [Hty' Htag'].
      split; [done|]. rewrite register_entry_tags, decide_False; [done|].
      intros Heq'. by rewrite <- Heq', Htag in Htag'.
  - intros tag e'. rewrite register_entry_tags. case_decide as Heq.
    + intros [= <-]. split; [done|].
      by rewrite register_entry_registry, decide_True.
    + intros He'. destruct (Htags tag e' He') as [Htag' Hty'].
      split; [done|]. rewrite register_entry_registry, decide_False; [done|].
      intros Heq'. by rewrite <- Heq', Hty in Hty'.
Qed.

(** So does registering again a registered type under the tag it has. *)
Lemma coherent_register_again (e e0 : Entry) (c : Ctx) :
  coherent c ->
  registry c !! entry_type e = Some e0 -> entry_tag e0 = entry_tag e ->
  coherent (register_entry e c).
Proof.
  intros [Hreg Htags] Hty Htag.
  destruct (Hreg _ _ Hty) as [Hty0 Htag0]. rewrite Htag in Htag0.
  split.
  - intros ty e'. rewrite register_entry_registry. case_decide as Heq.
    + intros [= <-]. split; [done|].
      by rewrite register_entry_tags, decide_True.
    + intros He'. destruct (Hreg ty e' He') as [Hty' Htag'].
      split; [done|]. rewrite register_entry_tags, decide_False; [done|].
      intros Heq'. rewrite Heq', Htag' in Htag0.
      injection Htag0 as ->. congruence.
  - intros tag e'. rewrite register_entry_tags. case_decide as Heq.
    + intros [= <-]. split; [done|].
      by rewrite register_entry_registry, decide_True.
    + intros He'. destruct (Htags tag e' He') as [Htag' Hty'].
      split; [done|]. rewrite register_entry_registry, decide_False; [done|].
      intros Heq'. rewrite Heq', Hty' in Hty.
      injection Hty as ->. congruence.
Qed.

(** And so does registering a table of new types and new tags, no two of
    them the same. *)
Lemma coherent_register_entries (es : list Entry) (c : Ctx) :
  coherent c -> unbound es c ->
  NoDup (entry_type <$> es) -> NoDup (entry_tag <$> es) ->
  coherent (register_entries es c).
Proof.
  revert c. induction es as [|e es IH]; intros c Hc Hun Hty Htag; [done|].
  apply Forall_cons in Hun as [[He_ty He_tag] Hun].
  rewrite fmap_cons in Hty. rewrite fmap_cons in Htag.
  apply NoDup_cons in Hty as [Hty_new Hty].
  apply NoDup_cons in Htag as [Htag_new Htag].
  cbn [register_entries foldl].
  change (foldl (fun c e => register_entry e c) (register_entry e c) es)
    with (register_entries es (register_entry e c)).
  apply IH; [by apply coherent_register_new| |done..].
  apply Forall_forall. intros e' He'.
  rewrite Forall_forall in Hun. destruct (Hun e' He') as [Hty' Htag'].
  rewrite register_entry_registry, register_entry_tags.
  rewrite !decide_False; [done| |].
  - intros Heq. apply Htag_new. rewrite Heq. by apply list_elem_of_fmap_2.
  - intros Heq. apply Hty_new. rewrite Heq. by apply list_elem_of_fmap_2.
Qed.

Lemma script_entries_NoDup (env : environment) :
  NoDup (entry_type <$> default_entries env ++ pandas_arrow_entries env)
  /\ NoDup (entry_tag <$> default_entries env ++ pandas_arrow_entries env)
  /\ NoDup (entry_type <$> default_entries env ++ custom_pandas_entries env)
  /\ NoDup (entry_tag <$> default_entries env ++ custom_pandas_entries env).
Proof.
  destruct env as [[] [] [] []];
    repeat split; by apply (bool_decide_unpack _).
Qed.

Lemma unbound_arrow (env : environment) (c : Ctx) :
  unbound (custom_pandas_entries env) c -> unbound (pandas_arrow_entries env) c.
Proof.
  unfold unbound, custom_pandas_entries, pandas_arrow_entries.
  destruct (has_pandas env); [|done].
  intros H. apply Forall_cons in H as [HS H].
  apply Forall_cons in H as [_ H]. apply Forall_cons in H as [HD _].
  apply Forall_cons. split; [exact HS|].
  apply Forall_cons. split; [exact HD|]. apply Forall_nil_2.
Qed.

(** X14. Importing the module keeps the two indexes of a context in
    agreement.  When the default context is coherent (each registered type
    is filed with its tag, and each tag with its type) and binds none of the
    types and tags the module registers, then both the default context and
    [pandas_serialization_context] are coherent once the module is imported:
    the tag a type is serialized under leads back to the entry, hence the
    deserializer, of that type. *)
Theorem module_body_coherent (env : environment) (dflt : loc) (h0 : Store)
    (c0 : Ctx) :
  h0 !! dflt = Some c0 ->
  coherent c0 ->
  unbound (default_entries env ++ custom_pandas_entries env) c0 ->
  exists pandas hf cd cp,
    module_body env dflt h0 = (pandas, hf)
    /\ hf !! dflt = Some cd /\ coherent cd
    /\ hf !! pandas = Some cp /\ coherent cp.
Proof.
  intros H0 Hc0 Hun.
  destruct (module_body_result env dflt h0 c0 H0)
    as (pandas & hf & Hrun & _ & _ & Hd & Hp & _).
  destruct (script_entries_NoDup env) as (Hty_a & Htag_a & Hty_c & Htag_c).
  apply Forall_app in Hun as [Hun_d Hun_c].
  exists pandas, hf. eexists. eexists.
  split; [done|]. split; [exact Hd|]. split; [|split; [exact Hp|]].
  - rewrite <- register_entries_app.
    apply coherent_register_entries; [done| |done..].
    apply Forall_app. split; [done|]. by apply unbound_arrow.
  - rewrite <- register_entries_app.
    apply (coherent_register_again _ ndarray_list_entry); [|  |done].
    + apply coherent_register_entries; [done| |done..].
      by apply Forall_app.
    + rewrite register_entries_registry.
      rewrite (bound_type_elem _ ndarray_list_entry); [done..|].
      apply elem_of_app. left. unfold default_entries.
      rewrite !elem_of_app, !elem_of_cons. tauto.
Qed.

Lemma module_body_coherent_first_import :
  let env := mkEnv false true true true in
  coherent (imported_default_context env)
  /\ coherent (imported_pandas_context env).
Proof.
  intros env.
  assert (unbound (default_entries env ++ custom_pandas_entries env)
            empty_context) as Hun.
  { apply Forall_forall. intros e _. by split. }
  destruct (module_body_coherent env 0%nat initial_store empty_context
              eq_refl coherent_empty Hun)
    as (pandas & hf & cd & cp & Hrun & Hd & Hcd & Hp & Hcp).
  unfold imported_pandas_context, imported_default_context, imported, context_at.
  rewrite Hrun. cbn [fst snd]. by rewrite Hd, Hp.
Defined.
